(** * kitest: the sporting-events state layer (src/state) in Rocq

    A shallow embedding of the jotai action atoms of [src/state/auth.ts],
    [src/state/event.ts], [src/state/utility.ts], of the derived atoms of the
    atoms module, of the action hooks of [src/hooks/useModule.ts] and of the
    handlers of the home, create-event and login screens, followed by the
    properties of the specification that concern them and by further
    properties of the code.  The storage adapters (JSON over MMKV) and the
    rendering are not modelled.

    Modelling decisions, all read off the source:
    - A JavaScript [Map<string, V>] is an insertion-ordered list of entries
      (module [JsMap]): [Array.from(m.values()).find(...)] returns the FIRST
      match in insertion order, so the order is observable.
    - JavaScript numbers that the code handles ([Date.now()], [getTime()],
      [parseInt]) are integers: [Z].
    - [Date.now()], [generateUUID()] and [nanoid()] are inputs of the
      operation that calls them (one argument per call in the source).
    - An action atom is a function [Store -> Outcome A * Store]: an exception
      does not roll the store back, so a property "the store is unchanged
      when the operation throws" is proved, not built in.
    - [console.log] appends to the [console] field of the store. *)

From Stdlib Require Import List String ZArith Bool Lia PeanoNat.
From Stdlib Require Import Sorted Permutation.
Import ListNotations.

Local Open Scope string_scope.
Local Open Scope list_scope.

(* ------------------------------------------------------------------------- *)
(** ** JavaScript [Map] with string keys *)

Module JsMap.

Section Ops.
Context {V : Type}.

Definition t : Type := list (string * V).

(** [new Map()] *)
Definition empty : t := [].

(** [m.get(k)]: [None] stands for [undefined]. *)
Fixpoint get (k : string) (m : t) : option V :=
  match m with
  | [] => None
  | (k', v) :: m' => if String.eqb k k' then Some v else get k m'
  end.

(** [m.set(k, v)] on a copy: an existing key keeps its position, a new key
    goes last. *)
Fixpoint set (k : string) (v : V) (m : t) : t :=
  match m with
  | [] => [(k, v)]
  | (k', v') :: m' =>
      if String.eqb k k' then (k, v) :: m' else (k', v') :: set k v m'
  end.

(** [m.delete(k)] on a copy: the entry under [k] goes (a Map has at most
    one, see [uniq]). *)
Definition delete (k : string) (m : t) : t :=
  filter (fun kv => negb (String.eqb k (fst kv))) m.

(** [Array.from(m.values())] and [Array.from(m.keys())], insertion order. *)
Definition values (m : t) : list V := map snd m.
Definition keys (m : t) : list string := map fst m.

(** [m.forEach((value, key) => ...)] where the callback updates local
    variables of the enclosing function: a left fold over the entries,
    the locals being the accumulator. *)
Definition forEach {S : Type} (f : V -> string -> S -> S) (m : t) (s : S) : S :=
  fold_left (fun acc kv => f (snd kv) (fst kv) acc) m s.

(** Keys of a JavaScript Map are pairwise distinct. *)
Definition uniq (m : t) : Prop := NoDup (keys m).

(** The pointwise image of a map (same keys, same order). *)
Definition map_values (f : V -> V) (m : t) : t :=
  map (fun kv => (fst kv, f (snd kv))) m.

(** Entries whose value passes [q] (same order). *)
Definition filter_values (q : V -> bool) (m : t) : t :=
  filter (fun kv => q (snd kv)) m.

(** [true] counts for one. *)
Definition b2n (b : bool) : nat := if b then 1 else 0.

(** Number of values that satisfy [p]. *)
Definition count (p : V -> bool) (m : t) : nat :=
  List.length (filter p (values m)).
End Ops.

Arguments t : clear implicits.

End JsMap.

(* ------------------------------------------------------------------------- *)
(** ** Data model ([src/@types/module.d.ts]) *)

Definition UserId := string.
Definition EventId := string.
Definition RequestId := string.

Inductive RequestStatus : Type :=
| PENDING | ACCEPTED | REJECTED | CANCELLED | EXPIRED.

Definition status_eqb (a b : RequestStatus) : bool :=
  match a, b with
  | PENDING, PENDING | ACCEPTED, ACCEPTED | REJECTED, REJECTED
  | CANCELLED, CANCELLED | EXPIRED, EXPIRED => true
  | _, _ => false
  end.

(** [status.toLowerCase()] of the enum's string value. *)
Definition status_toLowerCase (s : RequestStatus) : string :=
  match s with
  | PENDING => "pending"
  | ACCEPTED => "accepted"
  | REJECTED => "rejected"
  | CANCELLED => "cancelled"
  | EXPIRED => "expired"
  end.

Module User.
Record t : Type := mk {
  id : UserId;
  username : string;
  createdAt : Z;
  passwordHash : string
}.
End User.

Module SportingEvent.
Record t : Type := mk {
  id : EventId;
  title : string;
  sport : string;
  endTime : Z;
  location : string;
  startTime : Z;
  createdAt : Z;
  maxPlayers : Z;
  description : string;
  organizerId : UserId
}.
End SportingEvent.

(** [Omit<SportingEvent, "id" | "organizerId" | "createdAt">] *)
Module EventData.
Record t : Type := mk {
  title : string;
  sport : string;
  endTime : Z;
  location : string;
  startTime : Z;
  maxPlayers : Z;
  description : string
}.
End EventData.

(** [Partial<SportingEvent>]: every field is present ([Some]) or absent. *)
Module PartialEvent.
Record t : Type := mk {
  id : option EventId;
  title : option string;
  sport : option string;
  endTime : option Z;
  location : option string;
  startTime : option Z;
  createdAt : option Z;
  maxPlayers : option Z;
  description : option string;
  organizerId : option UserId
}.
End PartialEvent.

Module JoinRequest.
Record t : Type := mk {
  id : RequestId;
  userId : UserId;
  eventId : EventId;
  createdAt : Z;
  updatedAt : Z;
  status : RequestStatus
}.
End JoinRequest.

Module AuthState.
Record t : Type := mk {
  isAuthenticated : bool;
  currentUserId : option UserId
}.
End AuthState.

(** The four storage atoms of the atoms module, and the console. *)
Record Store : Type := mkStore {
  users : JsMap.t User.t;
  events : JsMap.t SportingEvent.t;
  requests : JsMap.t JoinRequest.t;
  auth : AuthState.t;
  console : list string
}.

(** The initial values of the atoms: three empty maps, nobody signed in. *)
Definition signedOut : AuthState.t :=
  {| AuthState.isAuthenticated := false; AuthState.currentUserId := None |}.

Definition initialStore : Store :=
  {| users := JsMap.empty; events := JsMap.empty; requests := JsMap.empty;
     auth := signedOut; console := [] |}.

(* ------------------------------------------------------------------------- *)
(** ** Action atoms as store transformers *)

Inductive Outcome (A : Type) : Type :=
| Returned (a : A)
| Thrown (message : string).
Arguments Returned {A} a.
Arguments Thrown {A} message.

Definition Action (A : Type) : Type := Store -> Outcome A * Store.

Definition ret {A} (a : A) : Action A := fun s => (Returned a, s).

Definition throw {A} (message : string) : Action A := fun s => (Thrown message, s).

Definition bind {A B} (m : Action A) (k : A -> Action B) : Action B :=
  fun s =>
    match m s with
    | (Returned a, s') => k a s'
    | (Thrown e, s') => (Thrown e, s')
    end.

Notation "x <- m ;; k" := (bind m (fun x => k))
  (at level 61, m at next level, right associativity).
Notation "m ;;; k" := (bind m (fun _ => k))
  (at level 61, right associativity).

(** A writable atom: how to read it from the store and how to replace it. *)
Record Atom (T : Type) : Type := mkAtom {
  read : Store -> T;
  write : T -> Store -> Store
}.
Arguments read {T} _ _.
Arguments write {T} _ _ _.

Definition usersAtom : Atom (JsMap.t User.t) :=
  mkAtom _ users
    (fun v s => {| users := v; events := events s; requests := requests s;
                   auth := auth s; console := console s |}).

Definition eventsAtom : Atom (JsMap.t SportingEvent.t) :=
  mkAtom _ events
    (fun v s => {| users := users s; events := v; requests := requests s;
                   auth := auth s; console := console s |}).

Definition requestsAtom : Atom (JsMap.t JoinRequest.t) :=
  mkAtom _ requests
    (fun v s => {| users := users s; events := events s; requests := v;
                   auth := auth s; console := console s |}).

Definition authAtom : Atom AuthState.t :=
  mkAtom _ auth
    (fun v s => {| users := users s; events := events s; requests := requests s;
                   auth := v; console := console s |}).

(** [get(atom)] and [set(atom, value)] of a jotai write function. *)
Definition get {T} (a : Atom T) : Action T := fun s => (Returned (read a s), s).
Definition set {T} (a : Atom T) (v : T) : Action unit :=
  fun s => (Returned tt, write a v s).

Definition console_log (line : string) : Action unit :=
  fun s => (Returned tt,
            {| users := users s; events := events s; requests := requests s;
               auth := auth s; console := console s ++ [line] |}).

(** The guard [!auth.isAuthenticated || !auth.currentUserId] fails exactly
    when the flag is set and the id is a non-empty string ([null] and the
    empty string are falsy); [signedIn] then gives that id. *)
Definition signedIn (a : AuthState.t) : option UserId :=
  if AuthState.isAuthenticated a then
    match AuthState.currentUserId a with
    | Some uid => if String.eqb uid "" then None else Some uid
    | None => None
    end
  else None.

(* ------------------------------------------------------------------------- *)
(** ** [src/state/auth.ts] *)

Definition hashPassword (password : string) : string := "hashed_" ++ password.

Definition verifyPassword (password hash : string) : bool :=
  String.eqb (hashPassword password) hash.

Definition authenticated (uid : UserId) : AuthState.t :=
  {| AuthState.isAuthenticated := true; AuthState.currentUserId := Some uid |}.

(** [registerUserAtom]; [nanoid] is the result of [nanoid()], [now] of
    [Date.now()]. *)
Definition registerUserAtom (username password : string) (nanoid : UserId) (now : Z)
  : Action User.t :=
  users <- get usersAtom ;;
  let existingUser :=
    find (fun user => String.eqb (User.username user) username) (JsMap.values users) in
  (match existingUser with
   | Some _ => console_log "User already exist"
   | None => ret tt
   end) ;;;
  let newUser :=
    {| User.createdAt := now; User.id := nanoid;
       User.passwordHash := hashPassword password; User.username := username |} in
  let updatedUsers := JsMap.set (User.id newUser) newUser users in
  set usersAtom updatedUsers ;;;
  set authAtom (authenticated (User.id newUser)) ;;;
  ret newUser.

(** [loginUserAtom]; the result [None] is the bare [return;] ([undefined]). *)
Definition loginUserAtom (username password : string) : Action (option User.t) :=
  users <- get usersAtom ;;
  let user := find (fun u => String.eqb (User.username u) username) (JsMap.values users) in
  match user with
  | None => console_log "No user exist" ;;; ret None
  | Some user =>
      (if negb (verifyPassword password (User.passwordHash user))
       then console_log "Invalid username or password"
       else ret tt) ;;;
      set authAtom (authenticated (User.id user)) ;;;
      ret (Some user)
  end.

Definition logoutUserAtom : Action unit :=
  set authAtom signedOut.

(** [src/state/utility.ts] *)
Definition clearAllDataAtom : Action unit :=
  set usersAtom JsMap.empty ;;;
  set eventsAtom JsMap.empty ;;;
  set requestsAtom JsMap.empty ;;;
  set authAtom signedOut.

(* ------------------------------------------------------------------------- *)
(** ** [src/state/event.ts]: events *)

(** [{ id: generateUUID(), ...eventData, createdAt: Date.now(),
       organizerId: auth.currentUserId }] *)
Definition newEventOf (eventData : EventData.t) (uuid : EventId) (now : Z)
    (organizer : UserId) : SportingEvent.t :=
  {| SportingEvent.id := uuid;
     SportingEvent.title := EventData.title eventData;
     SportingEvent.sport := EventData.sport eventData;
     SportingEvent.endTime := EventData.endTime eventData;
     SportingEvent.location := EventData.location eventData;
     SportingEvent.startTime := EventData.startTime eventData;
     SportingEvent.maxPlayers := EventData.maxPlayers eventData;
     SportingEvent.description := EventData.description eventData;
     SportingEvent.createdAt := now;
     SportingEvent.organizerId := organizer |}.

Definition createEventAtom (eventData : EventData.t) (uuid : EventId) (now : Z)
  : Action SportingEvent.t :=
  auth <- get authAtom ;;
  match signedIn auth with
  | None => throw "User must be authenticated to create an event"
  | Some currentUserId =>
      events <- get eventsAtom ;;
      let newEvent := newEventOf eventData uuid now currentUserId in
      let updatedEvents := JsMap.set (SportingEvent.id newEvent) newEvent events in
      set eventsAtom updatedEvents ;;;
      ret newEvent
  end.

(** One field of [{ ...event, ...updates }]: the update's value when the
    update has the field, the event's otherwise. *)
Definition orElse {A} (update : option A) (old : A) : A :=
  match update with Some a => a | None => old end.

(** [{ ...event, ...updates }] *)
Definition spread (event : SportingEvent.t) (updates : PartialEvent.t) : SportingEvent.t :=
  {| SportingEvent.id := orElse (PartialEvent.id updates) (SportingEvent.id event);
     SportingEvent.title := orElse (PartialEvent.title updates) (SportingEvent.title event);
     SportingEvent.sport := orElse (PartialEvent.sport updates) (SportingEvent.sport event);
     SportingEvent.endTime :=
       orElse (PartialEvent.endTime updates) (SportingEvent.endTime event);
     SportingEvent.location :=
       orElse (PartialEvent.location updates) (SportingEvent.location event);
     SportingEvent.startTime :=
       orElse (PartialEvent.startTime updates) (SportingEvent.startTime event);
     SportingEvent.createdAt :=
       orElse (PartialEvent.createdAt updates) (SportingEvent.createdAt event);
     SportingEvent.maxPlayers :=
       orElse (PartialEvent.maxPlayers updates) (SportingEvent.maxPlayers event);
     SportingEvent.description :=
       orElse (PartialEvent.description updates) (SportingEvent.description event);
     SportingEvent.organizerId :=
       orElse (PartialEvent.organizerId updates) (SportingEvent.organizerId event) |}.

Definition updateEventAtom (eventId : EventId) (updates : PartialEvent.t)
  : Action SportingEvent.t :=
  auth <- get authAtom ;;
  events <- get eventsAtom ;;
  match signedIn auth with
  | None => throw "User must be authenticated"
  | Some currentUserId =>
      match JsMap.get eventId events with
      | None => throw "Event not found"
      | Some event =>
          if negb (String.eqb (SportingEvent.organizerId event) currentUserId)
          then throw "Only the organizer can update the event"
          else
            let updatedEvent := spread event updates in
            let updatedEvents := JsMap.set eventId updatedEvent events in
            set eventsAtom updatedEvents ;;;
            ret updatedEvent
      end
  end.

(** The callback of [requests.forEach] in [deleteEventAtom]; its local is
    [updatedRequests], which starts as a copy of [requests]. *)
Definition dropIfFor (eventId : EventId) (request : JoinRequest.t)
    (requestId : RequestId) (updatedRequests : JsMap.t JoinRequest.t)
  : JsMap.t JoinRequest.t :=
  if String.eqb (JoinRequest.eventId request) eventId
  then JsMap.delete requestId updatedRequests
  else updatedRequests.

Definition deleteEventAtom (eventId : EventId) : Action unit :=
  auth <- get authAtom ;;
  events <- get eventsAtom ;;
  requests <- get requestsAtom ;;
  match signedIn auth with
  | None => throw "User must be authenticated"
  | Some currentUserId =>
      match JsMap.get eventId events with
      | None => throw "Event not found"
      | Some event =>
          if negb (String.eqb (SportingEvent.organizerId event) currentUserId)
          then throw "Only the organizer can delete the event"
          else
            let updatedEvents := JsMap.delete eventId events in
            set eventsAtom updatedEvents ;;;
            let updatedRequests :=
              JsMap.forEach (dropIfFor eventId) requests requests in
            set requestsAtom updatedRequests
      end
  end.

(* ------------------------------------------------------------------------- *)
(** ** [src/state/event.ts]: join requests *)

(** [req.eventId === eventId && req.status === "ACCEPTED"] *)
Definition acceptedFor (eventId : EventId) (req : JoinRequest.t) : bool :=
  String.eqb (JoinRequest.eventId req) eventId
  && status_eqb (JoinRequest.status req) ACCEPTED.

(** [Array.from(requests.values()).filter(...).length] *)
Definition acceptedCount (eventId : EventId) (requests : JsMap.t JoinRequest.t) : nat :=
  List.length (filter (acceptedFor eventId) (JsMap.values requests)).

(** [acceptedCount >= event.maxPlayers] *)
Definition isFull (eventId : EventId) (requests : JsMap.t JoinRequest.t)
    (event : SportingEvent.t) : bool :=
  (SportingEvent.maxPlayers event <=? Z.of_nat (acceptedCount eventId requests))%Z.

(** [{ ...request, status, updatedAt }] *)
Definition withStatus (request : JoinRequest.t) (status : RequestStatus) (updatedAt : Z)
  : JoinRequest.t :=
  {| JoinRequest.id := JoinRequest.id request;
     JoinRequest.userId := JoinRequest.userId request;
     JoinRequest.eventId := JoinRequest.eventId request;
     JoinRequest.createdAt := JoinRequest.createdAt request;
     JoinRequest.updatedAt := updatedAt;
     JoinRequest.status := status |}.

Definition createJoinRequestAtom (eventId : EventId) (uuid : RequestId) (now : Z)
  : Action JoinRequest.t :=
  auth <- get authAtom ;;
  events <- get eventsAtom ;;
  requests <- get requestsAtom ;;
  match signedIn auth with
  | None => throw "User must be authenticated to join an event"
  | Some currentUserId =>
      match JsMap.get eventId events with
      | None => throw "Event not found"
      | Some event =>
          if (SportingEvent.startTime event <=? now)%Z
          then throw "Event has already started"
          else if String.eqb (SportingEvent.organizerId event) currentUserId
          then throw "Organizer cannot join their own event"
          else
            let existingRequest :=
              find (fun req =>
                      String.eqb (JoinRequest.eventId req) eventId
                      && String.eqb (JoinRequest.userId req) currentUserId
                      && (status_eqb (JoinRequest.status req) PENDING
                          || status_eqb (JoinRequest.status req) ACCEPTED))
                   (JsMap.values requests) in
            match existingRequest with
            | Some existingRequest =>
                throw ("You already have a "
                         ++ status_toLowerCase (JoinRequest.status existingRequest)
                         ++ " request")
            | None =>
                if isFull eventId requests event
                then throw "Event is full"
                else
                  let newRequest :=
                    {| JoinRequest.createdAt := now;
                       JoinRequest.eventId := eventId;
                       JoinRequest.id := uuid;
                       JoinRequest.status := PENDING;
                       JoinRequest.updatedAt := now;
                       JoinRequest.userId := currentUserId |} in
                  let updatedRequests :=
                    JsMap.set (JoinRequest.id newRequest) newRequest requests in
                  set requestsAtom updatedRequests ;;;
                  ret newRequest
            end
      end
  end.

Definition acceptJoinRequestAtom (requestId : RequestId) (now : Z) : Action JoinRequest.t :=
  auth <- get authAtom ;;
  events <- get eventsAtom ;;
  requests <- get requestsAtom ;;
  match signedIn auth with
  | None => throw "User must be authenticated"
  | Some currentUserId =>
      match JsMap.get requestId requests with
      | None => throw "Request not found"
      | Some request =>
          match JsMap.get (JoinRequest.eventId request) events with
          | None => throw "Event not found"
          | Some event =>
              if negb (String.eqb (SportingEvent.organizerId event) currentUserId)
              then throw "Only the organizer can accept requests"
              else if negb (status_eqb (JoinRequest.status request) PENDING)
              then throw "Request is not pending"
              else if isFull (JoinRequest.eventId request) requests event
              then throw "Event is full"
              else
                let updatedRequest := withStatus request ACCEPTED now in
                let updatedRequests := JsMap.set requestId updatedRequest requests in
                set requestsAtom updatedRequests ;;;
                ret updatedRequest
          end
      end
  end.

Definition rejectJoinRequestAtom (requestId : RequestId) (now : Z) : Action JoinRequest.t :=
  auth <- get authAtom ;;
  events <- get eventsAtom ;;
  requests <- get requestsAtom ;;
  match signedIn auth with
  | None => throw "User must be authenticated"
  | Some currentUserId =>
      match JsMap.get requestId requests with
      | None => throw "Request not found"
      | Some request =>
          match JsMap.get (JoinRequest.eventId request) events with
          | None => throw "Event not found"
          | Some event =>
              if negb (String.eqb (SportingEvent.organizerId event) currentUserId)
              then throw "Only the organizer can reject requests"
              else if negb (status_eqb (JoinRequest.status request) PENDING)
              then throw "Request is not pending"
              else
                let updatedRequest := withStatus request REJECTED now in
                let updatedRequests := JsMap.set requestId updatedRequest requests in
                set requestsAtom updatedRequests ;;;
                ret updatedRequest
          end
      end
  end.

(** [cancelJoinRequestAtom] calls [Date.now()] twice: [now] for the
    "has started" test, [now'] for [updatedAt]. *)
Definition cancelJoinRequestAtom (requestId : RequestId) (now now' : Z)
  : Action JoinRequest.t :=
  auth <- get authAtom ;;
  events <- get eventsAtom ;;
  requests <- get requestsAtom ;;
  match signedIn auth with
  | None => throw "User must be authenticated"
  | Some currentUserId =>
      match JsMap.get requestId requests with
      | None => throw "Request not found"
      | Some request =>
          if negb (String.eqb (JoinRequest.userId request) currentUserId)
          then throw "You can only cancel your own requests"
          else if negb (status_eqb (JoinRequest.status request) PENDING)
          then throw "Can only cancel pending requests"
          else
            match JsMap.get (JoinRequest.eventId request) events with
            | None => throw "Event not found"
            | Some event =>
                if (SportingEvent.startTime event <=? now)%Z
                then throw "Cannot cancel request after event has started"
                else
                  let updatedRequest := withStatus request CANCELLED now' in
                  let updatedRequests := JsMap.set requestId updatedRequest requests in
                  set requestsAtom updatedRequests ;;;
                  ret updatedRequest
            end
      end
  end.

(** The test of the sweep's callback:
    [request.status === "PENDING"], then [event && event.startTime <= now]. *)
Definition expires (events : JsMap.t SportingEvent.t) (now : Z) (request : JoinRequest.t)
  : bool :=
  if status_eqb (JoinRequest.status request) PENDING then
    match JsMap.get (JoinRequest.eventId request) events with
    | Some event => (SportingEvent.startTime event <=? now)%Z
    | None => false
    end
  else false.

(** The callback of [requests.forEach] in [expirePendingRequestsAtom]; its
    locals are [updatedRequests] and [expiredCount]. *)
Definition expireOne (events : JsMap.t SportingEvent.t) (now : Z)
    (request : JoinRequest.t) (requestId : RequestId)
    (locals : JsMap.t JoinRequest.t * nat) : JsMap.t JoinRequest.t * nat :=
  let (updatedRequests, expiredCount) := locals in
  if expires events now request
  then (JsMap.set requestId (withStatus request EXPIRED now) updatedRequests,
        S expiredCount)
  else (updatedRequests, expiredCount).

Definition expirePendingRequestsAtom (now : Z) : Action nat :=
  events <- get eventsAtom ;;
  requests <- get requestsAtom ;;
  let (updatedRequests, expiredCount) :=
    JsMap.forEach (expireOne events now) requests (requests, 0) in
  (if (0 <? expiredCount)%nat then set requestsAtom updatedRequests else ret tt) ;;;
  ret expiredCount.

(* ------------------------------------------------------------------------- *)
(** ** The derived atom [canJoinEventAtom] *)

Module CanJoin.
(** [{ canJoin: boolean; reason?: string }] *)
Record t : Type := mk { canJoin : bool; reason : option string }.
End CanJoin.

Definition cannot (reason : string) : CanJoin.t :=
  {| CanJoin.canJoin := false; CanJoin.reason := Some reason |}.

Definition can : CanJoin.t :=
  {| CanJoin.canJoin := true; CanJoin.reason := None |}.

(** The function that [canJoinEventAtom] yields, on the store it reads;
    [now] is [Date.now()]. *)
Definition canJoinEventAtom (s : Store) (now : Z) (eventId : EventId) (userId : UserId)
  : CanJoin.t :=
  let events := read eventsAtom s in
  let requests := read requestsAtom s in
  match JsMap.get eventId events with
  | None => cannot "Event not found"
  | Some event =>
      if (SportingEvent.startTime event <=? now)%Z
      then cannot "Event has already started"
      else if String.eqb (SportingEvent.organizerId event) userId
      then cannot "You are the organizer"
      else
        let userRequest :=
          find (fun req =>
                  String.eqb (JoinRequest.eventId req) eventId
                  && String.eqb (JoinRequest.userId req) userId)
               (JsMap.values requests) in
        (* the statements after [if (userRequest) { ... }], reached when
           that block does not return *)
        let checkFull :=
          if isFull eventId requests event then cannot "Event is full" else can in
        match userRequest with
        | Some userRequest =>
            if status_eqb (JoinRequest.status userRequest) ACCEPTED
            then cannot "You are already accepted"
            else if status_eqb (JoinRequest.status userRequest) PENDING
            then cannot "You have a pending request"
            else checkFull
        | None => checkFull
        end
  end.

(* ------------------------------------------------------------------------- *)
(** ** The mutation layer as a transition system *)

(** One call of an action atom, with the values its [Date.now()] and id
    generator calls return. *)
Inductive Op : Type :=
| Register (username password : string) (nanoid : UserId) (now : Z)
| Login (username password : string)
| Logout
| ClearAllData
| CreateEvent (eventData : EventData.t) (uuid : EventId) (now : Z)
| UpdateEvent (eventId : EventId) (updates : PartialEvent.t)
| DeleteEvent (eventId : EventId)
| CreateJoinRequest (eventId : EventId) (uuid : RequestId) (now : Z)
| AcceptJoinRequest (requestId : RequestId) (now : Z)
| RejectJoinRequest (requestId : RequestId) (now : Z)
| CancelJoinRequest (requestId : RequestId) (now now' : Z)
| ExpirePendingRequests (now : Z).

(** The store after the call, whether it returned or threw. *)
Definition exec (op : Op) (s : Store) : Store :=
  match op with
  | Register u p i n => snd (registerUserAtom u p i n s)
  | Login u p => snd (loginUserAtom u p s)
  | Logout => snd (logoutUserAtom s)
  | ClearAllData => snd (clearAllDataAtom s)
  | CreateEvent d i n => snd (createEventAtom d i n s)
  | UpdateEvent e u => snd (updateEventAtom e u s)
  | DeleteEvent e => snd (deleteEventAtom e s)
  | CreateJoinRequest e i n => snd (createJoinRequestAtom e i n s)
  | AcceptJoinRequest r n => snd (acceptJoinRequestAtom r n s)
  | RejectJoinRequest r n => snd (rejectJoinRequestAtom r n s)
  | CancelJoinRequest r n n' => snd (cancelJoinRequestAtom r n n' s)
  | ExpirePendingRequests n => snd (expirePendingRequestsAtom n s)
  end.

(** Whether the call returned (did not throw). *)
Definition returns {A} (r : Outcome A * Store) : bool :=
  match fst r with Returned _ => true | Thrown _ => false end.

Definition succeeds (op : Op) (s : Store) : bool :=
  match op with
  | Register u p i n => returns (registerUserAtom u p i n s)
  | Login u p => returns (loginUserAtom u p s)
  | Logout => returns (logoutUserAtom s)
  | ClearAllData => returns (clearAllDataAtom s)
  | CreateEvent d i n => returns (createEventAtom d i n s)
  | UpdateEvent e u => returns (updateEventAtom e u s)
  | DeleteEvent e => returns (deleteEventAtom e s)
  | CreateJoinRequest e i n => returns (createJoinRequestAtom e i n s)
  | AcceptJoinRequest r n => returns (acceptJoinRequestAtom r n s)
  | RejectJoinRequest r n => returns (rejectJoinRequestAtom r n s)
  | CancelJoinRequest r n n' => returns (cancelJoinRequestAtom r n n' s)
  | ExpirePendingRequests n => returns (expirePendingRequestsAtom n s)
  end.

(** The stores that calls of the action atoms produce from the initial one. *)
Inductive reachable : Store -> Prop :=
| reachable_initial : reachable initialStore
| reachable_exec (op : Op) (s : Store) : reachable s -> reachable (exec op s).

(** [run ops s]: the calls [ops] in order, from [s]. *)
Definition run (ops : list Op) (s : Store) : Store :=
  fold_left (fun s op => exec op s) ops s.


(* ------------------------------------------------------------------------- *)
(** ** Vocabulary of the properties *)

(** The three collections are JavaScript Maps: no key occurs twice. *)
Definition wf (s : Store) : Prop :=
  JsMap.uniq (users s) /\ JsMap.uniq (events s) /\ JsMap.uniq (requests s).

(** What the sweep stores under a key that held [r]. *)
Definition swept (events : JsMap.t SportingEvent.t) (now : Z) (r : JoinRequest.t)
  : JoinRequest.t :=
  if expires events now r then withStatus r EXPIRED now else r.

(** The requests that [deleteEventAtom eventId] keeps. *)
Definition notFor (eventId : EventId) (request : JoinRequest.t) : bool :=
  negb (String.eqb (JoinRequest.eventId request) eventId).

(** [endTime > startTime] for every stored event. *)
Definition eventsOrdered (events : JsMap.t SportingEvent.t) : Prop :=
  forall e, In e (JsMap.values events) ->
            (SportingEvent.endTime e > SportingEvent.startTime e)%Z.

(** An active request: PENDING or ACCEPTED. *)
Definition active (r : JoinRequest.t) : bool :=
  status_eqb (JoinRequest.status r) PENDING
  || status_eqb (JoinRequest.status r) ACCEPTED.

(** An active request of [userId] for [eventId]. *)
Definition activeFor (userId : UserId) (eventId : EventId) (r : JoinRequest.t) : bool :=
  String.eqb (JoinRequest.eventId r) eventId
  && String.eqb (JoinRequest.userId r) userId
  && active r.

(** At most one active request per (user, event) pair. *)
Definition oneActivePerPair (requests : JsMap.t JoinRequest.t) : Prop :=
  forall userId eventId, JsMap.count (activeFor userId eventId) requests <= 1.

(** An update object that has every field, with the values of [e]. *)
Definition allFields (e : SportingEvent.t) : PartialEvent.t :=
  {| PartialEvent.id := Some (SportingEvent.id e);
     PartialEvent.title := Some (SportingEvent.title e);
     PartialEvent.sport := Some (SportingEvent.sport e);
     PartialEvent.endTime := Some (SportingEvent.endTime e);
     PartialEvent.location := Some (SportingEvent.location e);
     PartialEvent.startTime := Some (SportingEvent.startTime e);
     PartialEvent.createdAt := Some (SportingEvent.createdAt e);
     PartialEvent.maxPlayers := Some (SportingEvent.maxPlayers e);
     PartialEvent.description := Some (SportingEvent.description e);
     PartialEvent.organizerId := Some (SportingEvent.organizerId e) |}.

(** The empty update object [{}]. *)
Definition noFields : PartialEvent.t :=
  {| PartialEvent.id := None; PartialEvent.title := None; PartialEvent.sport := None;
     PartialEvent.endTime := None; PartialEvent.location := None;
     PartialEvent.startTime := None; PartialEvent.createdAt := None;
     PartialEvent.maxPlayers := None; PartialEvent.description := None;
     PartialEvent.organizerId := None |}.

(** The store with [line] logged. *)
Definition logged (line : string) (s : Store) : Store :=
  {| users := users s; events := events s; requests := requests s;
     auth := auth s; console := console s ++ [line] |}.

(* ------------------------------------------------------------------------- *)
(** ** Sample runs *)

Module Sample.

Definition football (startTime endTime maxPlayers : Z) : EventData.t :=
  {| EventData.title := "Five-a-side"; EventData.sport := "Football";
     EventData.endTime := endTime; EventData.location := "Pitch 2";
     EventData.startTime := startTime; EventData.maxPlayers := maxPlayers;
     EventData.description := "Weekly game" |}.

(** alice and bob register; bob is signed in (registration signs in). *)
Definition twoUsersOps : list Op :=
  [ Register "alice" "a-secret" "ua" 1; Register "bob" "b-secret" "ub" 2 ].

Definition twoUsers : Store := Eval vm_compute in run twoUsersOps initialStore.

(** alice organises e1 (one player at most); bob and carol ask to join;
    alice accepts bob. alice is signed in, r1 is ACCEPTED, r2 is PENDING and
    the event is full. *)
Definition fullEventOps : list Op :=
  [ Register "alice" "a-secret" "ua" 1; Register "bob" "b-secret" "ub" 2;
    Register "carol" "c-secret" "uc" 3;
    Login "alice" "a-secret"; CreateEvent (football 100 200 1) "e1" 10;
    Login "bob" "b-secret"; CreateJoinRequest "e1" "r1" 20;
    Login "carol" "c-secret"; CreateJoinRequest "e1" "r2" 30;
    Login "alice" "a-secret"; AcceptJoinRequest "r1" 40 ].

Definition fullEvent : Store := Eval vm_compute in run fullEventOps initialStore.

(** alice organises e1; bob asks to join (r1), alice rejects, bob asks again
    (r2). bob is signed in; r1 is REJECTED and precedes r2, which is PENDING. *)
Definition askedAgainOps : list Op :=
  [ Register "alice" "a-secret" "ua" 1; Register "bob" "b-secret" "ub" 2;
    Login "alice" "a-secret"; CreateEvent (football 100 200 5) "e1" 10;
    Login "bob" "b-secret"; CreateJoinRequest "e1" "r1" 20;
    Login "alice" "a-secret"; RejectJoinRequest "r1" 30;
    Login "bob" "b-secret"; CreateJoinRequest "e1" "r2" 40 ].

Definition askedAgain : Store := Eval vm_compute in run askedAgainOps initialStore.

End Sample.

(* ------------------------------------------------------------------------- *)
(** ** More vocabulary *)

(** [request.status === "EXPIRED"] *)
Definition isExpired (r : JoinRequest.t) : bool :=
  status_eqb (JoinRequest.status r) EXPIRED.

(** The id a createJoinRequest call draws from [generateUUID] is not the key
    of a stored request. *)
Definition freshRequestId (op : Op) (s : Store) : Prop :=
  match op with
  | CreateJoinRequest _ uuid _ => JsMap.get uuid (requests s) = None
  | _ => True
  end.

(** The join-eligibility check as the specification words it: the five
    conditions in order, the fourth being "the user holds no ACCEPTED or
    PENDING request for this event".  Kept apart from [canJoinEventAtom],
    which is the code, to compare the two. *)
Definition canJoinAsSpecified (s : Store) (now : Z) (eventId : EventId) (userId : UserId)
  : CanJoin.t :=
  match JsMap.get eventId (events s) with
  | None => cannot "Event not found"
  | Some event =>
      if (SportingEvent.startTime event <=? now)%Z
      then cannot "Event has already started"
      else if String.eqb (SportingEvent.organizerId event) userId
      then cannot "You are the organizer"
      else
        match find (activeFor userId eventId) (JsMap.values (requests s)) with
        | Some held =>
            if status_eqb (JoinRequest.status held) ACCEPTED
            then cannot "You are already accepted"
            else cannot "You have a pending request"
        | None =>
            if isFull eventId (requests s) event then cannot "Event is full" else can
        end
  end.

(** [req.eventId === eventId && req.userId === userId], the test of
    [canJoinEventAtom]'s [find]. *)
Definition requestOf (userId : UserId) (eventId : EventId) (req : JoinRequest.t) : bool :=
  String.eqb (JoinRequest.eventId req) eventId
  && String.eqb (JoinRequest.userId req) userId.

(* ------------------------------------------------------------------------- *)
(** ** The other derived atoms of the atoms module *)

(** [currentUserAtom]: [users.get(auth.currentUserId) ?? null]. *)
Definition currentUserAtom (s : Store) : option User.t :=
  let auth := read authAtom s in
  let users := read usersAtom s in
  match signedIn auth with
  | None => None
  | Some currentUserId => JsMap.get currentUserId users
  end.

(** [Array.prototype.sort(compare)]: the sort is stable, and for a
    comparator that is a consistent order its result is the one stable
    arrangement; insertion from the right computes it. *)
Fixpoint sortInsert {A : Type} (compare : A -> A -> Z) (x : A) (sorted : list A)
  : list A :=
  match sorted with
  | [] => [x]
  | y :: rest =>
      if (compare x y <=? 0)%Z then x :: y :: rest
      else y :: sortInsert compare x rest
  end.

Definition arraySort {A : Type} (compare : A -> A -> Z) (l : list A) : list A :=
  fold_right (sortInsert compare) [] l.

(** [futureEventsAtom]; [now] is [Date.now()]. *)
Definition futureEventsAtom (s : Store) (now : Z) : list SportingEvent.t :=
  let events := read eventsAtom s in
  arraySort
    (fun a b => (SportingEvent.startTime a - SportingEvent.startTime b)%Z)
    (filter (fun event => (SportingEvent.startTime event >? now)%Z)
            (JsMap.values events)).

(** [map.get(k) ?? []] *)
Definition getOrEmpty {A : Type} (k : string) (m : JsMap.t (list A)) : list A :=
  match JsMap.get k m with Some l => l | None => [] end.

(** [requestsByEventAtom]: the array found under the key is pushed to in
    place and stored again under the same key. *)
Definition requestsByEventAtom (s : Store) : JsMap.t (list JoinRequest.t) :=
  let requests := read requestsAtom s in
  JsMap.forEach
    (fun request _ byEvent =>
       let eventRequests := getOrEmpty (JoinRequest.eventId request) byEvent in
       JsMap.set (JoinRequest.eventId request) (eventRequests ++ [request]) byEvent)
    requests JsMap.empty.

(** [requestsByUserAtom] *)
Definition requestsByUserAtom (s : Store) : JsMap.t (list JoinRequest.t) :=
  let requests := read requestsAtom s in
  JsMap.forEach
    (fun request _ byUser =>
       let userRequests := getOrEmpty (JoinRequest.userId request) byUser in
       JsMap.set (JoinRequest.userId request) (userRequests ++ [request]) byUser)
    requests JsMap.empty.

Module EventWithParticipants.
Record t : Type := mk {
  event : SportingEvent.t;
  acceptedPlayers : list UserId;
  organizerUsername : string;
  pendingRequests : list JoinRequest.t
}.
End EventWithParticipants.

(** The function that [eventDetailsAtom] yields, on the store it reads;
    [None] is [null]. *)
Definition eventDetailsAtom (s : Store) (eventId : EventId)
  : option EventWithParticipants.t :=
  let events := read eventsAtom s in
  let requests := read requestsAtom s in
  let users := read usersAtom s in
  match JsMap.get eventId events with
  | None => None
  | Some event =>
      let eventRequests :=
        filter (fun req => String.eqb (JoinRequest.eventId req) eventId)
               (JsMap.values requests) in
      let acceptedPlayers :=
        map JoinRequest.userId
            (filter (fun req => status_eqb (JoinRequest.status req) ACCEPTED)
                    eventRequests) in
      let pendingRequests :=
        filter (fun req => status_eqb (JoinRequest.status req) PENDING)
               eventRequests in
      let organizer := JsMap.get (SportingEvent.organizerId event) users in
      Some {| EventWithParticipants.acceptedPlayers := acceptedPlayers;
              EventWithParticipants.event := event;
              EventWithParticipants.organizerUsername :=
                match organizer with
                | Some organizer => User.username organizer
                | None => "Unknown"
                end;
              EventWithParticipants.pendingRequests := pendingRequests |}
  end.

Module UserEventsSummary.
Record t : Type := mk {
  joinedEvents : list EventId;
  createdEvents : list EventId;
  pendingRequests : list RequestId
}.
End UserEventsSummary.


(** [.filter(x => x !== undefined)] (or [!== null]) on an array of lookups. *)
Fixpoint definedOnly {A : Type} (l : list (option A)) : list A :=
  match l with
  | [] => []
  | Some a :: l' => a :: definedOnly l'
  | None :: l' => definedOnly l'
  end.

(** The function that [eventParticipantsAtom] yields. *)
Definition eventParticipantsAtom (s : Store) (eventId : EventId) : list User.t :=
  let requests := read requestsAtom s in
  let users := read usersAtom s in
  let acceptedUserIds :=
    map JoinRequest.userId
        (filter (fun req =>
                   String.eqb (JoinRequest.eventId req) eventId
                   && status_eqb (JoinRequest.status req) ACCEPTED)
                (JsMap.values requests)) in
  definedOnly (map (fun id => JsMap.get id users) acceptedUserIds).

(** The function that [pendingRequestsForEventAtom] yields; the pair
    [(req, user)] is the object [{ ...req, user }]. *)
Definition pendingRequestsForEventAtom (s : Store) (eventId : EventId)
  : list (JoinRequest.t * User.t) :=
  let requests := read requestsAtom s in
  let users := read usersAtom s in
  definedOnly
    (map (fun req =>
            match JsMap.get (JoinRequest.userId req) users with
            | Some user => Some (req, user)
            | None => None
            end)
         (filter (fun req =>
                    String.eqb (JoinRequest.eventId req) eventId
                    && status_eqb (JoinRequest.status req) PENDING)
                 (JsMap.values requests))).

(* ------------------------------------------------------------------------- *)
(** ** [src/hooks/useModule.ts] *)

(** What an action hook resolves to: [{ <value>, success: true }] or
    [{ error, success: false }]. *)
Inductive HookResult (A : Type) : Type :=
| Success (value : A)
| Failure (error : string).
Arguments Success {A} value.
Arguments Failure {A} error.

(** The [try { ... } catch (error) { ... }] of every action hook; what the
    atoms throw are [Error]s, whose [message] is kept. *)
Definition tryCatch {A : Type} (action : Action A) (s : Store) : HookResult A * Store :=
  match action s with
  | (Returned value, s') => (Success value, s')
  | (Thrown message, s') => (Failure message, s')
  end.

Definition useCreateEvent (eventData : EventData.t) (uuid : EventId) (now : Z) :=
  tryCatch (createEventAtom eventData uuid now).
Definition useUpdateEvent (eventId : EventId) (updates : PartialEvent.t) :=
  tryCatch (updateEventAtom eventId updates).
Definition useDeleteEvent (eventId : EventId) :=
  tryCatch (deleteEventAtom eventId).
Definition useJoinEvent (eventId : EventId) (uuid : RequestId) (now : Z) :=
  tryCatch (createJoinRequestAtom eventId uuid now).
Definition useAcceptRequest (requestId : RequestId) (now : Z) :=
  tryCatch (acceptJoinRequestAtom requestId now).
Definition useRejectRequest (requestId : RequestId) (now : Z) :=
  tryCatch (rejectJoinRequestAtom requestId now).
Definition useCancelRequest (requestId : RequestId) (now now' : Z) :=
  tryCatch (cancelJoinRequestAtom requestId now now').


(* ------------------------------------------------------------------------- *)
(** ** [src/screen/home.tsx] *)


(** [getParticipantCount] over the requests the screen reads. *)
Definition getParticipantCount (s : Store) (eventId : string) : nat :=
  List.length
    (filter (fun req =>
               String.eqb (JoinRequest.eventId req) eventId
               && status_eqb (JoinRequest.status req) ACCEPTED)
            (JsMap.values (read requestsAtom s))).

(** The badge in the footer of an event card: "<n> spot(s) left" when
    [spotsLeft > 0 && spotsLeft <= 3], "Full" when [spotsLeft === 0],
    nothing otherwise. *)
Inductive SpotsBadge : Type :=
| SpotsLeft (spotsLeft : Z)
| Full
| NoBadge.

Definition spotsBadge (s : Store) (event : SportingEvent.t) : SpotsBadge :=
  let participantCount := getParticipantCount s (SportingEvent.id event) in
  let spotsLeft := (SportingEvent.maxPlayers event - Z.of_nat participantCount)%Z in
  if (spotsLeft >? 0)%Z && (spotsLeft <=? 3)%Z then SpotsLeft spotsLeft
  else if (spotsLeft =? 0)%Z then Full
  else NoBadge.

(* ------------------------------------------------------------------------- *)
(** ** [src/screen/create-event.tsx] *)

Module CreateEventForm.
(** The state of the form; a [Date] is its time value in milliseconds. *)
Record t : Type := mk {
  title : string;
  sport : string;
  description : string;
  location : string;
  maxPlayers : string;
  startDate : Z;
  endDate : Z
}.
End CreateEventForm.

(** What a handler of a screen does besides changing state. *)
Inductive ScreenEffect : Type :=
| NoEffect
| RouterBack
| RouterPush (route : string)
| Alert (message : string).

Section CreateEventScreen.

(** JavaScript built-ins the screen calls: [parseInt(text, 10)], [None]
    being [NaN], and [String.prototype.trim]. *)
Variable parseInt10 : string -> option Z.
Variable trim : string -> string.







End CreateEventScreen.


(* ------------------------------------------------------------------------- *)
(** ** The login screen *)

(** [handleSubmit] of [LoginScreen]: registration in register mode (no
    navigation), else login and [router.push("/")] when login returned a
    user. *)
Definition handleSubmit (isRegisterMode : bool) (username password : string)
    (nanoid : UserId) (now : Z) (s : Store) : ScreenEffect * Store :=
  if isRegisterMode then
    (NoEffect, snd (registerUserAtom username password nanoid now s))
  else
    match loginUserAtom username password s with
    | (Returned (Some _), s') => (RouterPush "/", s')
    | (_, s') => (NoEffect, s')
    end.

(* ------------------------------------------------------------------------- *)
(** ** Vocabulary of the further properties *)

(** Users are stored under their own id. *)
Definition usersKeyedById (s : Store) : Prop :=
  forall k u, In (k, u) (users s) -> User.id u = k.

(** The signed-in user, the requester of every request and the event of
    every request are stored. *)
Definition referencesResolve (s : Store) : Prop :=
  (forall uid, signedIn (auth s) = Some uid -> JsMap.get uid (users s) <> None)
  /\ (forall r, In r (JsMap.values (requests s)) ->
                JsMap.get (JoinRequest.userId r) (users s) <> None
                /\ JsMap.get (JoinRequest.eventId r) (events s) <> None).

(** No event has more ACCEPTED requests than [maxPlayers]. *)
Definition withinCapacity (s : Store) : Prop :=
  forall k event,
    JsMap.get k (events s) = Some event ->
    (Z.of_nat (acceptedCount k (requests s)) <= SportingEvent.maxPlayers event)%Z.

(** What a createEvent or updateEvent call must respect for the capacity to
    be kept: the event it stores admits the players already accepted under
    its key. *)
Definition keepsCapacity (op : Op) (s : Store) : Prop :=
  match op with
  | CreateEvent eventData uuid _ =>
      (Z.of_nat (acceptedCount uuid (requests s)) <= EventData.maxPlayers eventData)%Z
  | UpdateEvent eventId updates =>
      forall event,
        JsMap.get eventId (events s) = Some event ->
        (Z.of_nat (acceptedCount eventId (requests s))
         <= SportingEvent.maxPlayers (spread event updates))%Z
  | _ => True
  end.


(** What a call needs in order to return: who must be signed in. *)
Definition authorized (op : Op) (s : Store) : Prop :=
  match op with
  | CreateEvent _ _ _ | CreateJoinRequest _ _ _ =>
      exists uid, signedIn (auth s) = Some uid
  | UpdateEvent eventId _ | DeleteEvent eventId =>
      exists uid event,
        signedIn (auth s) = Some uid
        /\ JsMap.get eventId (events s) = Some event
        /\ SportingEvent.organizerId event = uid
  | AcceptJoinRequest requestId _ | RejectJoinRequest requestId _ =>
      exists uid request event,
        signedIn (auth s) = Some uid
        /\ JsMap.get requestId (requests s) = Some request
        /\ JsMap.get (JoinRequest.eventId request) (events s) = Some event
        /\ SportingEvent.organizerId event = uid
  | CancelJoinRequest requestId _ _ =>
      exists uid request,
        signedIn (auth s) = Some uid
        /\ JsMap.get requestId (requests s) = Some request
        /\ JoinRequest.userId request = uid
  | _ => True
  end.

Definition isAccept (op : Op) : bool :=
  match op with AcceptJoinRequest _ _ => true | _ => false end.

(** [user.username === username], the test of the two [find]s of auth.ts. *)
Definition hasUsername (username : string) (u : User.t) : bool :=
  String.eqb (User.username u) username.

(** What every reachable store satisfies besides [wf]. *)
Definition integrity (s : Store) : Prop :=
  wf s /\ usersKeyedById s /\ referencesResolve s.

(** The order of two events by start time. *)
Definition startsNoLater (a b : SportingEvent.t) : Prop :=
  (SportingEvent.startTime a <= SportingEvent.startTime b)%Z.

(** What a grouping Map holds under a key: the group when it has a member,
    nothing otherwise. *)
Definition nonEmpty {A : Type} (l : list A) : option (list A) :=
  match l with [] => None | _ :: _ => Some l end.
(* ------------------------------------------------------------------------- *)
(** * Facts about [JsMap] *)

Module JsMapFacts.
Import JsMap.

Ltac key_cases k k' :=
let E := fresh "E" in
destruct (String.eqb k k') eqn:E;
[ apply String.eqb_eq in E | apply String.eqb_neq in E ].

Section Facts.
Context {V : Type}.
Implicit Types (m : JsMap.t V) (k : string) (v : V) (p : V -> bool).

Lemma get_set_same k v m : get k (set k v m) = Some v.
Proof.
  induction m as [|[k' v'] m IH]; simpl.
  - now rewrite String.eqb_refl.
  - key_cases k k'; simpl.
    + now rewrite String.eqb_refl.
    + apply String.eqb_neq in E. now rewrite E.
Qed.

Lemma get_set_other k k' v m : k <> k' -> get k' (set k v m) = get k' m.
Proof.
  intros N. induction m as [|[k0 v0] m IH]; simpl.
  - apply not_eq_sym in N. apply String.eqb_neq in N. now rewrite N.
  - key_cases k k0; simpl.
    + subst k0. apply not_eq_sym in N. apply String.eqb_neq in N. now rewrite N.
    + now rewrite IH.
Qed.

Lemma get_delete_same k m : get k (delete k m) = None.
Proof.
  induction m as [|[k0 v0] m IH]; simpl; [reflexivity|].
  key_cases k k0; simpl; [assumption|].
  apply String.eqb_neq in E. now rewrite E.
Qed.

Lemma get_delete_other k k' m : k <> k' -> get k' (delete k m) = get k' m.
Proof.
  intros N. induction m as [|[k0 v0] m IH]; simpl; [reflexivity|].
  key_cases k k0; simpl.
  - subst k0. apply not_eq_sym in N. apply String.eqb_neq in N. now rewrite N.
  - now rewrite IH.
Qed.

Lemma get_None_iff k m : get k m = None <-> ~ In k (keys m).
Proof.
  induction m as [|[k0 v0] m IH]; simpl.
  - tauto.
  - key_cases k k0.
    + subst. split; [discriminate | tauto].
    + rewrite IH. split; [intros H [H'|H']; congruence | tauto].
Qed.

Lemma get_Some_In k v m : get k m = Some v -> In (k, v) m.
Proof.
  induction m as [|[k0 v0] m IH]; simpl; [discriminate|].
  key_cases k k0.
  - intros [= ->]. subst. now left.
  - intros H. right. now apply IH.
Qed.

Lemma In_get_Some k v m : uniq m -> In (k, v) m -> get k m = Some v.
Proof.
  unfold uniq. induction m as [|[k0 v0] m IH]; simpl; [tauto|].
  intros U [H|H].
  - injection H as -> ->. now rewrite String.eqb_refl.
  - inversion U as [|? ? Hn U']; subst.
    key_cases k k0.
    + subst k0. exfalso. apply Hn. change k with (fst (k, v)). now apply in_map.
    + now apply IH.
Qed.

Lemma In_values_get v m : In v (values m) -> exists k, In (k, v) m.
Proof.
  unfold values. rewrite in_map_iff. intros [[k v'] [E H]]. simpl in E. subst.
  now exists k.
Qed.

Lemma In_values_set x k v m :
  In x (values (set k v m)) -> x = v \/ In x (values m).
Proof.
  induction m as [|[k0 v0] m IH]; simpl.
  - intros [H|[]]. now left.
  - key_cases k k0; simpl.
    + intros [H|H]; [now left | right; now right].
    + intros [H|H]; [right; now left|].
      destruct (IH H) as [H'|H']; [now left | right; now right].
Qed.

Lemma In_values_delete x k m : In x (values (delete k m)) -> In x (values m).
Proof.
  unfold values, delete. rewrite !in_map_iff.
  intros [kv [E H]]. apply filter_In in H. exists kv. tauto.
Qed.

Lemma keys_set k v m :
  keys (set k v m)
  = match get k m with Some _ => keys m | None => keys m ++ [k] end.
Proof.
  induction m as [|[k0 v0] m IH]; simpl; [reflexivity|].
  key_cases k k0; simpl.
  - now subst.
  - rewrite IH. now destruct (get k m).
Qed.

Lemma uniq_set k v m : uniq m -> uniq (set k v m).
Proof.
  unfold uniq. rewrite keys_set. destruct (get k m) eqn:G; [tauto|].
  intros U. apply get_None_iff in G.
  apply NoDup_rev in U. rewrite <- (rev_involutive (keys m ++ [k])).
  apply NoDup_rev. rewrite rev_app_distr. simpl. constructor; [|assumption].
  now rewrite <- in_rev.
Qed.

Lemma keys_filter_incl (q : string * V -> bool) m k :
  In k (keys (filter q m)) -> In k (keys m).
Proof.
  unfold keys. rewrite !in_map_iff. intros [kv [E H]].
  apply filter_In in H. exists kv. tauto.
Qed.

Lemma uniq_filter (q : string * V -> bool) m : uniq m -> uniq (filter q m).
Proof.
  unfold uniq. induction m as [|[k0 v0] m IH]; simpl; [tauto|].
  intros U. inversion U as [|? ? Hn U']; subst.
  destruct (q (k0, v0)); simpl; [|now apply IH].
  constructor; [|now apply IH].
  intros H. apply Hn. now apply keys_filter_incl in H.
Qed.

Lemma uniq_delete k m : uniq m -> uniq (delete k m).
Proof. apply uniq_filter. Qed.

Lemma keys_map_values (f : V -> V) m : keys (map_values f m) = keys m.
Proof. unfold keys, map_values. rewrite map_map. now apply map_ext. Qed.

Lemma get_map_values (f : V -> V) k m :
  get k (map_values f m) = option_map f (get k m).
Proof.
  induction m as [|[k0 v0] m IH]; simpl; [reflexivity|].
  now destruct (String.eqb k k0).
Qed.

Lemma get_filter_values (q : V -> bool) k m :
  uniq m ->
  get k (filter_values q m)
  = match get k m with
    | Some v => if q v then Some v else None
    | None => None
    end.
Proof.
  unfold uniq. induction m as [|[k0 v0] m IH]; simpl; [reflexivity|].
  intros U. inversion U as [|? ? Hn U']; subst.
  key_cases k k0.
  - subst k0. destruct (q v0); simpl.
    + now rewrite String.eqb_refl.
    + apply get_None_iff. intros H. apply Hn. now apply keys_filter_incl in H.
  - destruct (q v0); simpl.
    + apply String.eqb_neq in E. rewrite E. now apply IH.
    + now apply IH.
Qed.

(** Counting: [set] replaces the value stored under the key, or adds one. *)
Lemma count_set_replace p k v old m :
  get k m = Some old ->
  count p (set k v m) + b2n (p old) = count p m + b2n (p v).
Proof.
  unfold count. induction m as [|[k0 v0] m IH]; simpl; [discriminate|].
  key_cases k k0; simpl.
  - intros [= ->]. destruct (p old), (p v); simpl; lia.
  - intros G. specialize (IH G). destruct (p v0); simpl; lia.
Qed.

Lemma count_set_new p k v m :
  get k m = None -> count p (set k v m) = count p m + b2n (p v).
Proof.
  unfold count. induction m as [|[k0 v0] m IH]; simpl.
  - intros _. now destruct (p v).
  - key_cases k k0; simpl; [discriminate|].
    intros G. specialize (IH G). destruct (p v0); simpl; lia.
Qed.

Lemma count_set_le p k v m : count p (set k v m) <= count p m + b2n (p v).
Proof.
  destruct (get k m) as [old|] eqn:G.
  - pose proof (count_set_replace p k v old m G). lia.
  - rewrite (count_set_new p k v m G). lia.
Qed.

Lemma count_delete_le p k m : count p (delete k m) <= count p m.
Proof.
  unfold count, delete. induction m as [|[k0 v0] m IH]; simpl; [lia|].
  destruct (String.eqb k k0); simpl; destruct (p v0); simpl; lia.
Qed.

(** [set] and [delete] at a key whose first occurrence is known. *)
Lemma set_middle k v old (a b : JsMap.t V) :
  ~ In k (keys a) -> set k v (a ++ (k, old) :: b) = a ++ (k, v) :: b.
Proof.
  induction a as [|[k0 v0] a IH]; simpl.
  - intros _. now rewrite String.eqb_refl.
  - intros N. key_cases k k0; [subst; tauto|]. rewrite IH; tauto.
Qed.

Lemma delete_absent k m : ~ In k (keys m) -> delete k m = m.
Proof.
  unfold delete. induction m as [|[k0 v0] m IH]; simpl; [reflexivity|].
  intros N. key_cases k k0; [subst; tauto|]. simpl. rewrite IH; tauto.
Qed.

Lemma delete_middle k old (a b : JsMap.t V) :
  ~ In k (keys a) -> ~ In k (keys b) -> delete k (a ++ (k, old) :: b) = a ++ b.
Proof.
  intros Na Nb. unfold delete. rewrite filter_app. simpl.
  rewrite String.eqb_refl. simpl.
  fold (delete k a). fold (delete k b).
  now rewrite !delete_absent.
Qed.
End Facts.

End JsMapFacts.

(* ------------------------------------------------------------------------- *)
(** * The two [forEach] loops in closed form *)

Section Loops.
Import JsMap JsMapFacts.

Lemma uniq_app_head {V} (pre post : JsMap.t V) k v :
  uniq (pre ++ (k, v) :: post) -> ~ In k (keys pre) /\ ~ In k (keys post).
Proof.
  unfold uniq, keys. rewrite map_app. simpl. intros U.
  apply NoDup_remove_2 in U. rewrite in_app_iff in U. tauto.
Qed.


Lemma expire_loop_from events now (post pre : JsMap.t JoinRequest.t) (n : nat) :
  uniq (pre ++ post) ->
  forEach (expireOne events now) post (map_values (swept events now) pre ++ post, n)
  = (map_values (swept events now) (pre ++ post), n + count (expires events now) post).
Proof.
  unfold forEach. revert pre n.
  induction post as [|[k r] post IH]; intros pre n U.
  - simpl. rewrite !app_nil_r. unfold count. simpl. now rewrite Nat.add_0_r.
  - destruct (uniq_app_head _ _ _ _ U) as [Npre _].
    assert (U' : uniq ((pre ++ [(k, r)]) ++ post)) by now rewrite <- app_assoc.
    assert (Nk : ~ In k (keys (map_values (swept events now) pre)))
      by now rewrite keys_map_values.
    cbn [fold_left fst snd]. unfold expireOne at 2.
    specialize (IH (pre ++ [(k, r)])).
    replace (pre ++ (k, r) :: post) with ((pre ++ [(k, r)]) ++ post)
      by now rewrite <- app_assoc.
    unfold count in *. cbn [values map filter].
    destruct (expires events now r) eqn:X.
    + rewrite set_middle by assumption.
      replace (map_values (swept events now) pre
                 ++ (k, withStatus r EXPIRED now) :: post)
        with (map_values (swept events now) (pre ++ [(k, r)]) ++ post).
      * etransitivity; [exact (IH (S n) U')|]. cbn [snd]. rewrite X.
        cbn [List.length]. unfold values. f_equal. lia.
      * unfold map_values. rewrite map_app, <- app_assoc. simpl.
        unfold swept. now rewrite X.
    + replace (map_values (swept events now) pre ++ (k, r) :: post)
        with (map_values (swept events now) (pre ++ [(k, r)]) ++ post).
      * etransitivity; [exact (IH n U')|]. cbn [snd]. rewrite X. reflexivity.
      * unfold map_values. rewrite map_app, <- app_assoc. simpl.
        unfold swept. now rewrite X.
Qed.

(** The loop of [expirePendingRequestsAtom]: every entry is swept in
    place, and the counter is the number of entries that expired. *)
Lemma expire_loop events now (requests : JsMap.t JoinRequest.t) :
  uniq requests ->
  forEach (expireOne events now) requests (requests, 0)
  = (map_values (swept events now) requests, count (expires events now) requests).
Proof.
  intros U. exact (expire_loop_from events now requests [] 0 U).
Qed.

Lemma swept_nothing events now (requests : JsMap.t JoinRequest.t) :
  count (expires events now) requests = 0 ->
  map_values (swept events now) requests = requests.
Proof.
  unfold count, map_values, swept.
  induction requests as [|[k r] m IH]; simpl; [reflexivity|].
  destruct (expires events now r); simpl; [discriminate|].
  intros H. now rewrite IH.
Qed.


Lemma delete_loop_from eventId (post pre : JsMap.t JoinRequest.t) :
  uniq (pre ++ post) ->
  forEach (dropIfFor eventId) post (filter_values (notFor eventId) pre ++ post)
  = filter_values (notFor eventId) (pre ++ post).
Proof.
  unfold forEach. revert pre.
  induction post as [|[k r] post IH]; intros pre U.
  - simpl. now rewrite !app_nil_r.
  - destruct (uniq_app_head _ _ _ _ U) as [Npre Npost].
    assert (U' : uniq ((pre ++ [(k, r)]) ++ post)) by now rewrite <- app_assoc.
    assert (Nk : ~ In k (keys (filter_values (notFor eventId) pre)))
      by (intros H; apply Npre; now apply keys_filter_incl in H).
    cbn [fold_left fst snd]. unfold dropIfFor at 2.
    specialize (IH (pre ++ [(k, r)]) U').
    replace (pre ++ (k, r) :: post) with ((pre ++ [(k, r)]) ++ post)
      by now rewrite <- app_assoc.
    rewrite <- IH. f_equal.
    replace (filter_values (notFor eventId) (pre ++ [(k, r)]))
      with (filter_values (notFor eventId) pre
              ++ (if notFor eventId r then [(k, r)] else []))
      by (unfold filter_values; rewrite filter_app; reflexivity).
    unfold notFor at 4.
    destruct (String.eqb (JoinRequest.eventId r) eventId); cbn [negb].
    + rewrite app_nil_r. now apply delete_middle.
    + now rewrite <- app_assoc.
Qed.

(** The loop of [deleteEventAtom]: what is left are the entries whose
    request is for another event, in their order. *)
Lemma delete_loop eventId (requests : JsMap.t JoinRequest.t) :
  uniq requests ->
  forEach (dropIfFor eventId) requests requests
  = filter_values (notFor eventId) requests.
Proof.
  intros U. exact (delete_loop_from eventId requests [] U).
Qed.
End Loops.

(* ------------------------------------------------------------------------- *)
(** * Well-formed stores

    Every action atom keeps the keys of the three Maps distinct, so the
    hypothesis [JsMap.uniq (requests s)] of the theorems below holds in every
    store reached from the initial one. *)


Ltac unfold_action :=
  unfold bind, get, set, throw, ret, console_log; cbn [read write
    usersAtom eventsAtom requestsAtom authAtom users events requests auth console
    fst snd].

(** Case analysis on the guards of an action, outermost first. *)
Ltac guard_cases :=
  repeat match goal with
    | |- context [match signedIn ?a with _ => _ end] =>
        destruct (signedIn a) eqn:?
    | |- context [match JsMap.get ?k ?m with _ => _ end] =>
        destruct (JsMap.get k m) eqn:?
    | |- context [match find ?p ?l with _ => _ end] =>
        destruct (find p l) eqn:?
    | |- context [if negb ?b then _ else _] => destruct b eqn:?; cbn [negb]
    | |- context [if ?b then _ else _] => destruct b eqn:?
    end.

Lemma wf_exec (op : Op) (s : Store) : wf s -> wf (exec op s).
Proof.
  destruct s as [us es rs a c]. unfold wf. cbn [users events requests].
  intros (Uu & Ue & Ur).
  destruct op; unfold exec.
  - unfold registerUserAtom. unfold_action. guard_cases; unfold_action;
      repeat split; auto using JsMapFacts.uniq_set.
  - unfold loginUserAtom. unfold_action. guard_cases; unfold_action; auto.
  - unfold logoutUserAtom. unfold_action. auto.
  - unfold clearAllDataAtom. unfold_action. repeat split; constructor.
  - unfold createEventAtom. unfold_action. guard_cases; unfold_action;
      repeat split; auto using JsMapFacts.uniq_set.
  - unfold updateEventAtom. unfold_action. guard_cases; unfold_action;
      repeat split; auto using JsMapFacts.uniq_set.
  - unfold deleteEventAtom. unfold_action.
    rewrite (delete_loop eventId rs Ur).
    guard_cases; unfold_action; repeat split; auto.
    + now apply JsMapFacts.uniq_delete.
    + now apply JsMapFacts.uniq_filter.
  - unfold createJoinRequestAtom. unfold_action. guard_cases; unfold_action;
      repeat split; auto using JsMapFacts.uniq_set.
  - unfold acceptJoinRequestAtom. unfold_action. guard_cases; unfold_action;
      repeat split; auto using JsMapFacts.uniq_set.
  - unfold rejectJoinRequestAtom. unfold_action. guard_cases; unfold_action;
      repeat split; auto using JsMapFacts.uniq_set.
  - unfold cancelJoinRequestAtom. unfold_action. guard_cases; unfold_action;
      repeat split; auto using JsMapFacts.uniq_set.
  - unfold expirePendingRequestsAtom. unfold_action.
    rewrite (expire_loop es now rs Ur).
    guard_cases; unfold_action; repeat split; auto.
    unfold JsMap.uniq. now rewrite JsMapFacts.keys_map_values.
Qed.

Lemma wf_initial : wf initialStore.
Proof. repeat split; constructor. Qed.

Lemma wf_reachable (s : Store) : reachable s -> wf s.
Proof.
  induction 1 as [|op s _ IH]; [exact wf_initial | now apply wf_exec].
Qed.

Lemma reachable_run (ops : list Op) (s : Store) : reachable s -> reachable (run ops s).
Proof.
  unfold run. revert s. induction ops as [|op ops IH]; simpl; intros s R.
  - exact R.
  - apply IH. now constructor.
Qed.

Lemma twoUsers_reachable : reachable Sample.twoUsers.
Proof.
  change Sample.twoUsers with (run Sample.twoUsersOps initialStore).
  apply reachable_run. constructor.
Qed.

Lemma fullEvent_reachable : reachable Sample.fullEvent.
Proof.
  change Sample.fullEvent with (run Sample.fullEventOps initialStore).
  apply reachable_run. constructor.
Qed.

Lemma askedAgain_reachable : reachable Sample.askedAgain.
Proof.
  change Sample.askedAgain with (run Sample.askedAgainOps initialStore).
  apply reachable_run. constructor.
Qed.

(* ------------------------------------------------------------------------- *)
(** * Events: [createEventAtom] and [updateEventAtom] *)


Lemma createEvent_returned (s s' : Store) eventData uuid now ev :
  createEventAtom eventData uuid now s = (Returned ev, s') ->
  exists uid,
    ev = newEventOf eventData uuid now uid
    /\ events s' = JsMap.set uuid ev (events s).
Proof.
  unfold createEventAtom. unfold_action.
  destruct (signedIn (auth s)) as [uid|]; [|discriminate].
  intros [= <- <-]. now exists uid.
Qed.

Lemma updateEvent_organizer (s : Store) eventId updates uid event :
  signedIn (auth s) = Some uid ->
  JsMap.get eventId (events s) = Some event ->
  SportingEvent.organizerId event = uid ->
  updateEventAtom eventId updates s
  = (Returned (spread event updates),
     write eventsAtom (JsMap.set eventId (spread event updates) (events s)) s).
Proof.
  intros A G O. unfold updateEventAtom. unfold_action. rewrite A, G.
  apply String.eqb_eq in O. now rewrite O.
Qed.

Lemma updateEvent_returned (s s' : Store) eventId updates ev :
  updateEventAtom eventId updates s = (Returned ev, s') ->
  exists old,
    JsMap.get eventId (events s) = Some old
    /\ ev = spread old updates
    /\ events s' = JsMap.set eventId ev (events s).
Proof.
  unfold updateEventAtom. unfold_action.
  destruct (signedIn (auth s)) as [uid|]; [|discriminate].
  destruct (JsMap.get eventId (events s)) as [old|]; [|discriminate].
  destruct (negb _); [discriminate|].
  intros [= <- <-]. now exists old.
Qed.

Lemma eventsOrdered_set k (e : SportingEvent.t) (es : JsMap.t SportingEvent.t) :
  eventsOrdered es ->
  (SportingEvent.endTime e > SportingEvent.startTime e)%Z ->
  eventsOrdered (JsMap.set k e es).
Proof.
  intros H He x Hx. apply JsMapFacts.In_values_set in Hx.
  destruct Hx as [->|Hx]; auto.
Qed.

Lemma spread_allFields (event target : SportingEvent.t) :
  spread event (allFields target) = target.
Proof. now destruct target. Qed.

Lemma spread_noFields (event : SportingEvent.t) : spread event noFields = event.
Proof. now destruct event. Qed.

(** C1, as the code has it: [createEventAtom] and [updateEventAtom] store
    what they are given and check no ordering of the times.  When every
    stored event has [endTime > startTime], a createEvent that returns keeps
    it so provided [eventData] has [endTime > startTime] (the returned event
    has the times of [eventData] and is stored), and an updateEvent that
    returns keeps it so provided the merged event it returns has
    [endTime > startTime]. *)
Theorem C1_ordered_times_preserved_when_input_ordered (s : Store) :
  eventsOrdered (events s) ->
  (forall eventData uuid now ev s',
      (EventData.endTime eventData > EventData.startTime eventData)%Z ->
      createEventAtom eventData uuid now s = (Returned ev, s') ->
      SportingEvent.endTime ev = EventData.endTime eventData
      /\ SportingEvent.startTime ev = EventData.startTime eventData
      /\ JsMap.get uuid (events s') = Some ev
      /\ eventsOrdered (events s'))
  /\ (forall eventId updates ev s',
         updateEventAtom eventId updates s = (Returned ev, s') ->
         (SportingEvent.endTime ev > SportingEvent.startTime ev)%Z ->
         JsMap.get eventId (events s') = Some ev
         /\ eventsOrdered (events s')).
Proof.
  intros Ord. split.
  - intros eventData uuid now ev s' Hd R.
    destruct (createEvent_returned _ _ _ _ _ _ R) as (uid & -> & ->).
    repeat split; try reflexivity.
    + apply JsMapFacts.get_set_same.
    + now apply eventsOrdered_set.
  - intros eventId updates ev s' R Hev.
    destruct (updateEvent_returned _ _ _ _ _ R) as (old & _ & _ & ->).
    split.
    + apply JsMapFacts.get_set_same.
    + now apply eventsOrdered_set.
Qed.

Lemma C1_ordered_times_witness :
  eventsOrdered
    (events (snd (createEventAtom (Sample.football 100 200 10) "e1" 5 Sample.twoUsers)))
  /\ eventsOrdered
       (events (snd (updateEventAtom "e1" noFields Sample.fullEvent))).
Proof.
  assert (O2 : eventsOrdered (events Sample.twoUsers)) by (intros e []).
  assert (OF : eventsOrdered (events Sample.fullEvent)).
  { intros e [<-|[]]. reflexivity. }
  split.
  - destruct (C1_ordered_times_preserved_when_input_ordered Sample.twoUsers O2)
      as [Hc _].
    apply (Hc (Sample.football 100 200 10) "e1" 5%Z
              (newEventOf (Sample.football 100 200 10) "e1" 5 "ub"));
      reflexivity.
  - destruct (C1_ordered_times_preserved_when_input_ordered Sample.fullEvent OF)
      as [_ Hu].
    apply (Hu "e1" noFields (newEventOf (Sample.football 100 200 1) "e1" 10 "ua"));
      reflexivity.
Defined.

(** C1 as stated fails: a signed-in user creates an event that ends before
    it starts, and an organizer moves the end of an event before its start;
    both calls return and the event is stored. *)
Lemma C1_unordered_times_accepted :
  ~ (forall s eventData uuid now ev s',
        eventsOrdered (events s) ->
        createEventAtom eventData uuid now s = (Returned ev, s') ->
        eventsOrdered (events s'))
  /\ ~ (forall s eventId updates ev s',
           eventsOrdered (events s) ->
           updateEventAtom eventId updates s = (Returned ev, s') ->
           eventsOrdered (events s')).
Proof.
  split.
  - intros H.
    assert (O2 : eventsOrdered (events Sample.twoUsers)) by (intros e []).
    specialize (H Sample.twoUsers (Sample.football 200 100 10) "e1" 5%Z _ _ O2 eq_refl).
    specialize (H _ (or_introl eq_refl)). discriminate H.
  - intros H.
    assert (OF : eventsOrdered (events Sample.fullEvent)).
    { intros e [<-|[]]. reflexivity. }
    pose (upd := {| PartialEvent.id := None; PartialEvent.title := None;
                    PartialEvent.sport := None; PartialEvent.endTime := Some 50%Z;
                    PartialEvent.location := None; PartialEvent.startTime := None;
                    PartialEvent.createdAt := None; PartialEvent.maxPlayers := None;
                    PartialEvent.description := None;
                    PartialEvent.organizerId := None |}).
    specialize (H Sample.fullEvent "e1" upd _ _ OF eq_refl).
    specialize (H _ (or_introl eq_refl)). discriminate H.
Qed.

(** C10: an updateEvent by the signed-in organizer of a stored event returns
    the shallow merge [{ ...event, ...updates }] and stores it under
    [eventId], whatever [updates] holds; every event value whatsoever
    (another id, another organizer, times in any order, any maxPlayers) is
    the result of such a call. *)
Theorem C10_updateEvent_stores_unrestricted_merge
    (s : Store) (eventId : EventId) (updates : PartialEvent.t)
    (uid : UserId) (event : SportingEvent.t) :
  signedIn (auth s) = Some uid ->
  JsMap.get eventId (events s) = Some event ->
  SportingEvent.organizerId event = uid ->
  updateEventAtom eventId updates s
  = (Returned (spread event updates),
     write eventsAtom (JsMap.set eventId (spread event updates) (events s)) s)
  /\ JsMap.get eventId (events (snd (updateEventAtom eventId updates s)))
     = Some (spread event updates)
  /\ (forall target : SportingEvent.t,
         exists updates',
           spread event updates' = target
           /\ fst (updateEventAtom eventId updates' s) = Returned target
           /\ JsMap.get eventId (events (snd (updateEventAtom eventId updates' s)))
              = Some target).
Proof.
  intros A G O. repeat split.
  - exact (updateEvent_organizer s eventId updates uid event A G O).
  - rewrite (updateEvent_organizer s eventId updates uid event A G O).
    apply JsMapFacts.get_set_same.
  - intros target. exists (allFields target).
    rewrite (updateEvent_organizer s eventId (allFields target) uid event A G O).
    rewrite spread_allFields. repeat split. apply JsMapFacts.get_set_same.
Qed.

Lemma C10_updateEvent_witness :
  exists updates',
    fst (updateEventAtom "e1" updates' Sample.fullEvent)
    = Returned {| SportingEvent.id := "other-id";
                  SportingEvent.title := "Five-a-side";
                  SportingEvent.sport := "Football";
                  SportingEvent.endTime := 0;
                  SportingEvent.location := "Pitch 2";
                  SportingEvent.startTime := 100;
                  SportingEvent.createdAt := 10;
                  SportingEvent.maxPlayers := 0;
                  SportingEvent.description := "Weekly game";
                  SportingEvent.organizerId := "ub" |}.
Proof.
  destruct (C10_updateEvent_stores_unrestricted_merge
              Sample.fullEvent "e1" noFields "ua"
              {| SportingEvent.id := "e1";
                 SportingEvent.title := "Five-a-side";
                 SportingEvent.sport := "Football";
                 SportingEvent.endTime := 200;
                 SportingEvent.location := "Pitch 2";
                 SportingEvent.startTime := 100;
                 SportingEvent.createdAt := 10;
                 SportingEvent.maxPlayers := 1;
                 SportingEvent.description := "Weekly game";
                 SportingEvent.organizerId := "ua" |}
              eq_refl eq_refl eq_refl) as (_ & _ & H).
  destruct (H {| SportingEvent.id := "other-id";
                 SportingEvent.title := "Five-a-side";
                 SportingEvent.sport := "Football";
                 SportingEvent.endTime := 0;
                 SportingEvent.location := "Pitch 2";
                 SportingEvent.startTime := 100;
                 SportingEvent.createdAt := 10;
                 SportingEvent.maxPlayers := 0;
                 SportingEvent.description := "Weekly game";
                 SportingEvent.organizerId := "ub" |}) as (u & _ & R & _).
  exists u. exact R.
Defined.

(* ------------------------------------------------------------------------- *)
(** * Login *)

Lemma login_found (s : Store) username password user :
  find (fun u => String.eqb (User.username u) username) (JsMap.values (users s))
  = Some user ->
  loginUserAtom username password s
  = (Returned (Some user),
     write authAtom (authenticated (User.id user))
       (if verifyPassword password (User.passwordHash user)
        then s else logged "Invalid username or password" s)).
Proof.
  intros F. unfold loginUserAtom. unfold_action. rewrite F.
  destruct (verifyPassword password (User.passwordHash user)); reflexivity.
Qed.

Lemma login_not_found (s : Store) username password :
  find (fun u => String.eqb (User.username u) username) (JsMap.values (users s))
  = None ->
  loginUserAtom username password s = (Returned None, logged "No user exist" s).
Proof.
  intros F. unfold loginUserAtom. unfold_action. now rewrite F.
Qed.

Lemma find_username_exists (us : list User.t) username u0 :
  In u0 us -> User.username u0 = username ->
  exists user,
    find (fun u => String.eqb (User.username u) username) us = Some user.
Proof.
  intros I E.
  destruct (find (fun u => String.eqb (User.username u) username) us) as [user|] eqn:F.
  - now exists user.
  - apply (find_none _ _ F) in I. apply String.eqb_neq in I. contradiction.
Qed.

(** C4: when a stored user has the given username, login returns the first
    such user and signs that user in, whatever the password: a password
    whose hash differs from the stored one only adds the line
    "Invalid username or password" to the console. *)
Theorem C4_login_signs_in_whatever_the_password
    (s : Store) (username password : string) (u0 : User.t) :
  In u0 (JsMap.values (users s)) ->
  User.username u0 = username ->
  exists user,
    In user (JsMap.values (users s))
    /\ User.username user = username
    /\ fst (loginUserAtom username password s) = Returned (Some user)
    /\ auth (snd (loginUserAtom username password s))
       = {| AuthState.isAuthenticated := true;
            AuthState.currentUserId := Some (User.id user) |}
    /\ (verifyPassword password (User.passwordHash user) = false ->
        snd (loginUserAtom username password s)
        = write authAtom (authenticated (User.id user))
            (logged "Invalid username or password" s)).
Proof.
  intros I E.
  destruct (find_username_exists _ _ _ I E) as [user F].
  exists user. rewrite (login_found s username password user F).
  destruct (find_some _ _ F) as [Iu Eu]. apply String.eqb_eq in Eu.
  repeat split; auto.
  intros V. cbn [snd]. now rewrite V.
Qed.

Lemma C4_login_wrong_password_witness :
  exists user,
    fst (loginUserAtom "alice" "not-her-password" Sample.twoUsers)
    = Returned (Some user)
    /\ auth (snd (loginUserAtom "alice" "not-her-password" Sample.twoUsers))
       = authenticated "ua"
    /\ verifyPassword "not-her-password" (User.passwordHash user) = false.
Proof.
  destruct (C4_login_signs_in_whatever_the_password
              Sample.twoUsers "alice" "not-her-password"
              {| User.id := "ua"; User.username := "alice"; User.createdAt := 1;
                 User.passwordHash := "hashed_a-secret" |}
              (or_introl eq_refl) eq_refl)
    as (user & _ & _ & R & A & _).
  exists user. split; [exact R|]. split; [reflexivity|].
  vm_compute in R. injection R as <-. reflexivity.
Defined.

(** C9: when no stored user has the given username, login returns
    [undefined], logs "No user exist" and changes nothing else: the three
    collections and the auth state are the ones before the call. *)
Theorem C9_login_unknown_username_changes_nothing
    (s : Store) (username password : string) :
  (forall u, In u (JsMap.values (users s)) -> User.username u <> username) ->
  loginUserAtom username password s = (Returned None, logged "No user exist" s)
  /\ users (snd (loginUserAtom username password s)) = users s
  /\ events (snd (loginUserAtom username password s)) = events s
  /\ requests (snd (loginUserAtom username password s)) = requests s
  /\ auth (snd (loginUserAtom username password s)) = auth s.
Proof.
  intros N.
  assert (F : find (fun u => String.eqb (User.username u) username)
                (JsMap.values (users s)) = None).
  { destruct (find _ _) as [user|] eqn:F; [|reflexivity].
    destruct (find_some _ _ F) as [Iu Eu]. apply String.eqb_eq in Eu.
    now apply N in Iu. }
  rewrite (login_not_found s username password F). repeat split.
Qed.

Lemma C9_login_unknown_username_witness :
  loginUserAtom "dave" "d-secret" Sample.fullEvent
  = (Returned None, logged "No user exist" Sample.fullEvent).
Proof.
  apply (C9_login_unknown_username_changes_nothing Sample.fullEvent "dave" "d-secret").
  intros u [<-|[<-|[<-|[]]]]; discriminate.
Defined.

(* ------------------------------------------------------------------------- *)
(** * Accepting into a full event *)

(** C6: the signed-in organizer accepts a PENDING request while the number
    of ACCEPTED requests for the event equals [maxPlayers]: the call throws
    "Event is full", the store is the one before the call, and the request
    is still stored with status PENDING. *)
Theorem C6_accept_on_full_event_throws
    (s : Store) (requestId : RequestId) (now : Z)
    (uid : UserId) (request : JoinRequest.t) (event : SportingEvent.t) :
  signedIn (auth s) = Some uid ->
  JsMap.get requestId (requests s) = Some request ->
  JsMap.get (JoinRequest.eventId request) (events s) = Some event ->
  SportingEvent.organizerId event = uid ->
  JoinRequest.status request = PENDING ->
  Z.of_nat (acceptedCount (JoinRequest.eventId request) (requests s))
  = SportingEvent.maxPlayers event ->
  acceptJoinRequestAtom requestId now s = (Thrown "Event is full", s)
  /\ requests (snd (acceptJoinRequestAtom requestId now s)) = requests s
  /\ exists r, JsMap.get requestId (requests (snd (acceptJoinRequestAtom requestId now s)))
               = Some r
               /\ JoinRequest.status r = PENDING.
Proof.
  intros A G Ge O P Full.
  assert (R : acceptJoinRequestAtom requestId now s = (Thrown "Event is full", s)).
  { unfold acceptJoinRequestAtom. unfold_action. rewrite A, G, Ge.
    apply String.eqb_eq in O. rewrite O, P. cbn [negb status_eqb].
    unfold isFull. rewrite Full, Z.leb_refl. reflexivity. }
  rewrite R. repeat split. exists request. now split.
Qed.

Lemma C6_accept_on_full_event_witness :
  acceptJoinRequestAtom "r2" 50 Sample.fullEvent
  = (Thrown "Event is full", Sample.fullEvent).
Proof.
  apply (C6_accept_on_full_event_throws Sample.fullEvent "r2" 50 "ua"
           {| JoinRequest.id := "r2"; JoinRequest.userId := "uc";
              JoinRequest.eventId := "e1"; JoinRequest.createdAt := 30;
              JoinRequest.updatedAt := 30; JoinRequest.status := PENDING |}
           (newEventOf (Sample.football 100 200 1) "e1" 10 "ua"));
    reflexivity.
Defined.

(* ------------------------------------------------------------------------- *)
(** * Deleting an event *)

Lemma deleteEvent_organizer (s : Store) eventId uid event :
  JsMap.uniq (requests s) ->
  signedIn (auth s) = Some uid ->
  JsMap.get eventId (events s) = Some event ->
  SportingEvent.organizerId event = uid ->
  deleteEventAtom eventId s
  = (Returned tt,
     write requestsAtom (JsMap.filter_values (notFor eventId) (requests s))
       (write eventsAtom (JsMap.delete eventId (events s)) s)).
Proof.
  intros U A G O. unfold deleteEventAtom. unfold_action. rewrite A, G.
  apply String.eqb_eq in O. rewrite O. cbn [negb].
  now rewrite (delete_loop eventId (requests s) U).
Qed.

Lemma In_values_filter_values {V} (q : V -> bool) (m : JsMap.t V) v :
  In v (JsMap.values (JsMap.filter_values q m)) <-> In v (JsMap.values m) /\ q v = true.
Proof.
  unfold JsMap.values, JsMap.filter_values. rewrite !in_map_iff. split.
  - intros [[k v'] [E H]]. simpl in E. subst v'. apply filter_In in H.
    simpl in H. split; [|tauto]. exists (k, v). tauto.
  - intros [[[k v'] [E H]] Q]. simpl in E. subst v'. exists (k, v).
    split; [reflexivity|]. apply filter_In. now split.
Qed.

Lemma values_filter_values {V} (q : V -> bool) (m : JsMap.t V) :
  JsMap.values (JsMap.filter_values q m) = filter q (JsMap.values m).
Proof.
  unfold JsMap.values, JsMap.filter_values.
  induction m as [|[k v] m IH]; simpl; [reflexivity|].
  destruct (q v); simpl; now rewrite IH.
Qed.

Lemma notFor_true eventId r :
  notFor eventId r = true <-> JoinRequest.eventId r <> eventId.
Proof.
  unfold notFor. rewrite negb_true_iff. apply String.eqb_neq.
Qed.

(** C7: a deleteEvent by the signed-in organizer of a stored event returns;
    afterwards no event is stored under [eventId] and no stored request has
    that [eventId]; every event under another key and every request for
    another event is stored as before (the requests in their order), and
    users and auth state are untouched. *)
Theorem C7_deleteEvent_removes_event_and_its_requests
    (s : Store) (eventId : EventId) (uid : UserId) (event : SportingEvent.t) :
  JsMap.uniq (requests s) ->
  signedIn (auth s) = Some uid ->
  JsMap.get eventId (events s) = Some event ->
  SportingEvent.organizerId event = uid ->
  fst (deleteEventAtom eventId s) = Returned tt
  /\ JsMap.get eventId (events (snd (deleteEventAtom eventId s))) = None
  /\ (forall k, k <> eventId ->
         JsMap.get k (events (snd (deleteEventAtom eventId s)))
         = JsMap.get k (events s))
  /\ (forall r, In r (JsMap.values (requests (snd (deleteEventAtom eventId s)))) ->
                JoinRequest.eventId r <> eventId)
  /\ (forall k r, JsMap.get k (requests s) = Some r ->
                  JsMap.get k (requests (snd (deleteEventAtom eventId s)))
                  = if String.eqb (JoinRequest.eventId r) eventId
                    then None else Some r)
  /\ (forall k, JsMap.get k (requests s) = None ->
                JsMap.get k (requests (snd (deleteEventAtom eventId s))) = None)
  /\ JsMap.values (requests (snd (deleteEventAtom eventId s)))
     = filter (notFor eventId) (JsMap.values (requests s))
  /\ users (snd (deleteEventAtom eventId s)) = users s
  /\ auth (snd (deleteEventAtom eventId s)) = auth s.
Proof.
  intros U A G O. rewrite (deleteEvent_organizer s eventId uid event U A G O).
  unfold_action. repeat split.
  - apply JsMapFacts.get_delete_same.
  - intros k N. apply JsMapFacts.get_delete_other. congruence.
  - intros r I. apply In_values_filter_values in I. now apply notFor_true.
  - intros k r Gr. rewrite (JsMapFacts.get_filter_values _ _ _ U), Gr.
    unfold notFor. now destruct (String.eqb (JoinRequest.eventId r) eventId).
  - intros k Gr. now rewrite (JsMapFacts.get_filter_values _ _ _ U), Gr.
  - apply values_filter_values.
Qed.

(** When the events are stored under their own [id] (createEventAtom stores
    them so; an updateEvent that overwrites [id] breaks it), no stored event
    has the deleted id as its [id] field either. *)
Lemma deleteEvent_no_event_with_that_id
    (s : Store) (eventId : EventId) (uid : UserId) (event : SportingEvent.t) :
  (forall k e, In (k, e) (events s) -> SportingEvent.id e = k) ->
  JsMap.uniq (requests s) ->
  signedIn (auth s) = Some uid ->
  JsMap.get eventId (events s) = Some event ->
  SportingEvent.organizerId event = uid ->
  forall e, In e (JsMap.values (events (snd (deleteEventAtom eventId s)))) ->
            SportingEvent.id e <> eventId.
Proof.
  intros K U A G O e. rewrite (deleteEvent_organizer s eventId uid event U A G O).
  unfold_action. intros I. apply JsMapFacts.In_values_get in I.
  destruct I as [k I]. unfold JsMap.delete in I. apply filter_In in I.
  destruct I as [I N]. simpl in N. apply negb_true_iff, String.eqb_neq in N.
  rewrite (K k e I). congruence.
Qed.

Lemma C7_deleteEvent_witness :
  events (snd (deleteEventAtom "e1" Sample.fullEvent)) = []
  /\ requests (snd (deleteEventAtom "e1" Sample.fullEvent)) = [].
Proof.
  assert (U : JsMap.uniq (requests Sample.fullEvent)).
  { unfold JsMap.uniq. simpl. repeat constructor; simpl; intuition discriminate. }
  destruct (C7_deleteEvent_removes_event_and_its_requests
              Sample.fullEvent "e1" "ua"
              (newEventOf (Sample.football 100 200 1) "e1" 10 "ua")
              U eq_refl eq_refl eq_refl) as (_ & _ & _ & _ & _ & _ & V & _).
  split; [reflexivity|].
  destruct (requests (snd (deleteEventAtom "e1" Sample.fullEvent))); [reflexivity|].
  discriminate V.
Defined.

(* ------------------------------------------------------------------------- *)
(** * The expiry sweep *)

Lemma expirePendingRequests_closed_form (s : Store) now :
  JsMap.uniq (requests s) ->
  expirePendingRequestsAtom now s
  = (Returned (JsMap.count (expires (events s) now) (requests s)),
     write requestsAtom (JsMap.map_values (swept (events s) now) (requests s)) s).
Proof.
  intros U. unfold expirePendingRequestsAtom. unfold_action.
  rewrite (expire_loop (events s) now (requests s) U).
  destruct (JsMap.count (expires (events s) now) (requests s)) as [|n] eqn:C.
  - cbn [Nat.ltb Nat.leb]. rewrite (swept_nothing _ _ _ C). now destruct s.
  - reflexivity.
Qed.

Lemma expires_true events now r :
  expires events now r = true <->
  JoinRequest.status r = PENDING
  /\ exists event, JsMap.get (JoinRequest.eventId r) events = Some event
                   /\ (SportingEvent.startTime event <= now)%Z.
Proof.
  unfold expires. destruct (JoinRequest.status r) eqn:S; cbn [status_eqb];
    try (split; [discriminate | intros [? _]; discriminate]).
  destruct (JsMap.get (JoinRequest.eventId r) events) as [event|].
  - rewrite Z.leb_le. split.
    + intros L. split; [reflexivity|]. now exists event.
    + intros [_ (event' & [= <-] & L)]. exact L.
  - split; [discriminate|]. intros [_ (event' & E & _)]. discriminate.
Qed.

Lemma count_swept_expired events now (m : JsMap.t JoinRequest.t) :
  JsMap.count isExpired (JsMap.map_values (swept events now) m)
  = JsMap.count isExpired m + JsMap.count (expires events now) m.
Proof.
  unfold JsMap.count, JsMap.values, JsMap.map_values.
  induction m as [|[k r] m IH]; [reflexivity|].
  cbn [map filter fst snd]. unfold swept at 1.
  destruct (expires events now r) eqn:X.
  - apply expires_true in X. destruct X as [P _].
    assert (E0 : isExpired r = false) by (unfold isExpired; now rewrite P).
    assert (E1 : isExpired (withStatus r EXPIRED now) = true) by reflexivity.
    rewrite E0, E1. cbn [List.length]. rewrite IH. lia.
  - destruct (isExpired r); cbn [List.length]; rewrite IH; lia.
Qed.

(** C8: after the sweep at time [now], every request that was PENDING and
    whose event is stored with [startTime <= now] is EXPIRED with
    [updatedAt = now] (its other fields kept); every request that was not
    PENDING is stored unchanged; the call returns the number of requests
    that it expired, which is the number of EXPIRED requests gained; events,
    users and auth state are untouched. *)
Theorem C8_sweep_expires_started_pending_requests (s : Store) (now : Z) :
  JsMap.uniq (requests s) ->
  (forall k r event,
      JsMap.get k (requests s) = Some r ->
      JoinRequest.status r = PENDING ->
      JsMap.get (JoinRequest.eventId r) (events s) = Some event ->
      (SportingEvent.startTime event <= now)%Z ->
      JsMap.get k (requests (snd (expirePendingRequestsAtom now s)))
      = Some (withStatus r EXPIRED now))
  /\ (forall k r,
         JsMap.get k (requests s) = Some r ->
         JoinRequest.status r <> PENDING ->
         JsMap.get k (requests (snd (expirePendingRequestsAtom now s))) = Some r)
  /\ fst (expirePendingRequestsAtom now s)
     = Returned (JsMap.count (expires (events s) now) (requests s))
  /\ JsMap.count isExpired (requests (snd (expirePendingRequestsAtom now s)))
     = JsMap.count isExpired (requests s)
       + JsMap.count (expires (events s) now) (requests s)
  /\ events (snd (expirePendingRequestsAtom now s)) = events s
  /\ users (snd (expirePendingRequestsAtom now s)) = users s
  /\ auth (snd (expirePendingRequestsAtom now s)) = auth s.
Proof.
  intros U. rewrite (expirePendingRequests_closed_form s now U).
  unfold_action. repeat split.
  - intros k r event G P Ge L. rewrite JsMapFacts.get_map_values, G.
    cbn [option_map]. unfold swept.
    assert (X : expires (events s) now r = true).
    { apply expires_true. split; [exact P|]. now exists event. }
    now rewrite X.
  - intros k r G P. rewrite JsMapFacts.get_map_values, G.
    cbn [option_map]. unfold swept.
    destruct (expires (events s) now r) eqn:X; [|reflexivity].
    apply expires_true in X. tauto.
  - apply count_swept_expired.
Qed.

Lemma C8_sweep_witness :
  fst (expirePendingRequestsAtom 150 Sample.fullEvent) = Returned 1
  /\ JsMap.get "r2" (requests (snd (expirePendingRequestsAtom 150 Sample.fullEvent)))
     = Some {| JoinRequest.id := "r2"; JoinRequest.userId := "uc";
               JoinRequest.eventId := "e1"; JoinRequest.createdAt := 30;
               JoinRequest.updatedAt := 150; JoinRequest.status := EXPIRED |}.
Proof.
  assert (U : JsMap.uniq (requests Sample.fullEvent)).
  { unfold JsMap.uniq. simpl. repeat constructor; simpl; intuition discriminate. }
  destruct (C8_sweep_expires_started_pending_requests Sample.fullEvent 150 U)
    as (E & _ & R & _).
  split; [exact R|].
  apply (E "r2"
           {| JoinRequest.id := "r2"; JoinRequest.userId := "uc";
              JoinRequest.eventId := "e1"; JoinRequest.createdAt := 30;
              JoinRequest.updatedAt := 30; JoinRequest.status := PENDING |}
           (newEventOf (Sample.football 100 200 1) "e1" 10 "ua"));
    try reflexivity.
  vm_compute. discriminate.
Defined.

(* ------------------------------------------------------------------------- *)
(** * Requests that are no longer PENDING *)

Ltac thrown := eexists; reflexivity.

(** Closes a goal whose context says that [r] is PENDING and that it is not. *)
Ltac not_pending_absurd r :=
  exfalso; destruct (JoinRequest.status r); simpl in *; congruence.

Lemma accept_not_pending (s : Store) k r now :
  JsMap.get k (requests s) = Some r ->
  JoinRequest.status r <> PENDING ->
  exists message, acceptJoinRequestAtom k now s = (Thrown message, s).
Proof.
  intros G P. unfold acceptJoinRequestAtom. unfold_action. rewrite G.
  guard_cases; try thrown; not_pending_absurd r.
Qed.

Lemma reject_not_pending (s : Store) k r now :
  JsMap.get k (requests s) = Some r ->
  JoinRequest.status r <> PENDING ->
  exists message, rejectJoinRequestAtom k now s = (Thrown message, s).
Proof.
  intros G P. unfold rejectJoinRequestAtom. unfold_action. rewrite G.
  guard_cases; try thrown; not_pending_absurd r.
Qed.

Lemma cancel_not_pending (s : Store) k r now now' :
  JsMap.get k (requests s) = Some r ->
  JoinRequest.status r <> PENDING ->
  exists message, cancelJoinRequestAtom k now now' s = (Thrown message, s).
Proof.
  intros G P. unfold cancelJoinRequestAtom. unfold_action. rewrite G.
  guard_cases; try thrown; not_pending_absurd r.
Qed.

Lemma expire_keeps_not_pending (s : Store) k r now :
  JsMap.uniq (requests s) ->
  JsMap.get k (requests s) = Some r ->
  JoinRequest.status r <> PENDING ->
  JsMap.get k (requests (snd (expirePendingRequestsAtom now s))) = Some r.
Proof.
  intros U G P. rewrite (expirePendingRequests_closed_form s now U).
  unfold_action. rewrite JsMapFacts.get_map_values, G. cbn [option_map].
  unfold swept. destruct (expires (events s) now r) eqn:X; [|reflexivity].
  apply expires_true in X. tauto.
Qed.

Lemma exec_keeps_not_pending (op : Op) (s : Store) k r :
  JsMap.uniq (requests s) ->
  JsMap.get k (requests s) = Some r ->
  JoinRequest.status r <> PENDING ->
  freshRequestId op s ->
  JsMap.get k (requests (exec op s)) = Some r
  \/ JsMap.get k (requests (exec op s)) = None.
Proof.
  intros U G P F. destruct op; unfold exec.
  - left. unfold registerUserAtom. unfold_action. guard_cases; exact G.
  - left. unfold loginUserAtom. unfold_action. guard_cases; exact G.
  - left. exact G.
  - right. reflexivity.
  - left. unfold createEventAtom. unfold_action. guard_cases; exact G.
  - left. unfold updateEventAtom. unfold_action. guard_cases; exact G.
  - unfold deleteEventAtom. unfold_action.
    rewrite (delete_loop eventId (requests s) U).
    guard_cases; unfold_action; try (left; exact G).
    rewrite (JsMapFacts.get_filter_values _ _ _ U), G.
    destruct (notFor eventId r); [now left | now right].
  - left. simpl in F.
    assert (N : uuid <> k) by (intros ->; congruence).
    unfold createJoinRequestAtom. unfold_action. guard_cases; unfold_action;
      try exact G.
    now rewrite JsMapFacts.get_set_other.
  - left. destruct (string_dec requestId k) as [->|N].
    + destruct (accept_not_pending s k r now G P) as [m ->]. exact G.
    + unfold acceptJoinRequestAtom. unfold_action. guard_cases; unfold_action;
        try exact G.
      now rewrite JsMapFacts.get_set_other.
  - left. destruct (string_dec requestId k) as [->|N].
    + destruct (reject_not_pending s k r now G P) as [m ->]. exact G.
    + unfold rejectJoinRequestAtom. unfold_action. guard_cases; unfold_action;
        try exact G.
      now rewrite JsMapFacts.get_set_other.
  - left. destruct (string_dec requestId k) as [->|N].
    + destruct (cancel_not_pending s k r now now' G P) as [m ->]. exact G.
    + unfold cancelJoinRequestAtom. unfold_action. guard_cases; unfold_action;
        try exact G.
      now rewrite JsMapFacts.get_set_other.
  - left. now apply expire_keeps_not_pending.
Qed.

(** C3: a stored request whose status is not PENDING (so ACCEPTED,
    REJECTED, CANCELLED or EXPIRED) keeps its status: accept, reject and
    cancel of that request throw and leave the store as it was, the expiry
    sweep stores it unchanged, and after any call of any action atom it is
    either stored unchanged or no longer stored (deleteEvent and
    clearAllData remove requests); for createJoinRequest this takes the id
    from [generateUUID] not to be the key of a stored request. *)
Theorem C3_status_is_final_once_not_pending
    (s : Store) (k : RequestId) (r : JoinRequest.t) :
  JsMap.uniq (requests s) ->
  JsMap.get k (requests s) = Some r ->
  JoinRequest.status r <> PENDING ->
  (forall now, exists message,
        acceptJoinRequestAtom k now s = (Thrown message, s))
  /\ (forall now, exists message,
         rejectJoinRequestAtom k now s = (Thrown message, s))
  /\ (forall now now', exists message,
         cancelJoinRequestAtom k now now' s = (Thrown message, s))
  /\ (forall now,
         JsMap.get k (requests (snd (expirePendingRequestsAtom now s))) = Some r)
  /\ (forall op, freshRequestId op s ->
                 JsMap.get k (requests (exec op s)) = Some r
                 \/ JsMap.get k (requests (exec op s)) = None).
Proof.
  intros U G P. repeat split.
  - intros now. now apply (accept_not_pending s k r).
  - intros now. now apply (reject_not_pending s k r).
  - intros now now'. now apply (cancel_not_pending s k r).
  - intros now. now apply expire_keeps_not_pending.
  - intros op F. now apply exec_keeps_not_pending.
Qed.

Lemma C3_status_is_final_witness :
  (exists message,
      acceptJoinRequestAtom "r1" 50 Sample.fullEvent = (Thrown message, Sample.fullEvent))
  /\ JsMap.get "r1" (requests (snd (expirePendingRequestsAtom 150 Sample.fullEvent)))
     = JsMap.get "r1" (requests Sample.fullEvent).
Proof.
  assert (U : JsMap.uniq (requests Sample.fullEvent)).
  { unfold JsMap.uniq. simpl. repeat constructor; simpl; intuition discriminate. }
  destruct (C3_status_is_final_once_not_pending
              Sample.fullEvent "r1"
              {| JoinRequest.id := "r1"; JoinRequest.userId := "ub";
                 JoinRequest.eventId := "e1"; JoinRequest.createdAt := 20;
                 JoinRequest.updatedAt := 40; JoinRequest.status := ACCEPTED |}
              U eq_refl ltac:(discriminate)) as (A & _ & _ & E & _).
  split; [exact (A 50%Z) | exact (E 150%Z)].
Defined.

(* ------------------------------------------------------------------------- *)
(** * At most one active request per (user, event) *)

Section OneActive.
Import JsMap JsMapFacts.

Lemma count_zero_of_find_None (p : JoinRequest.t -> bool) (m : JsMap.t JoinRequest.t) :
  find p (values m) = None -> count p m = 0.
Proof.
  unfold count. intros F.
  induction (values m) as [|x l IH]; simpl in *; [reflexivity|].
  destruct (p x); [discriminate | auto].
Qed.

Lemma activeFor_pair u e r :
  activeFor u e r = true ->
  JoinRequest.userId r = u /\ JoinRequest.eventId r = e /\ active r = true.
Proof.
  unfold activeFor. rewrite !andb_true_iff, !String.eqb_eq. tauto.
Qed.

Lemma oneActive_set_inactive k v (m : JsMap.t JoinRequest.t) :
  active v = false -> oneActivePerPair m -> oneActivePerPair (set k v m).
Proof.
  intros Av H u e. pose proof (count_set_le (activeFor u e) k v m) as L.
  assert (Z : activeFor u e v = false)
    by (unfold activeFor; rewrite Av; apply andb_false_r).
  rewrite Z in L. simpl in L. specialize (H u e). lia.
Qed.

Lemma oneActive_set_alike k v old (m : JsMap.t JoinRequest.t) :
  get k m = Some old ->
  (forall u e, activeFor u e v = activeFor u e old) ->
  oneActivePerPair m -> oneActivePerPair (set k v m).
Proof.
  intros G Same H u e.
  pose proof (count_set_replace (activeFor u e) k v old m G) as L.
  rewrite Same in L. specialize (H u e). lia.
Qed.

Lemma oneActive_set_first k v (m : JsMap.t JoinRequest.t) :
  count (activeFor (JoinRequest.userId v) (JoinRequest.eventId v)) m = 0 ->
  oneActivePerPair m -> oneActivePerPair (set k v m).
Proof.
  intros Z H u e. pose proof (count_set_le (activeFor u e) k v m) as L.
  destruct (activeFor u e v) eqn:A.
  - apply activeFor_pair in A. destruct A as (<- & <- & _).
    rewrite Z in L. simpl in L. lia.
  - specialize (H u e). simpl in L. lia.
Qed.

Lemma oneActive_delete k (m : JsMap.t JoinRequest.t) :
  oneActivePerPair m -> oneActivePerPair (delete k m).
Proof.
  intros H u e. pose proof (count_delete_le (activeFor u e) k m).
  specialize (H u e). lia.
Qed.

Lemma oneActive_delete_loop eventId (post acc : JsMap.t JoinRequest.t) :
  oneActivePerPair acc ->
  oneActivePerPair (forEach (dropIfFor eventId) post acc).
Proof.
  unfold forEach. revert acc.
  induction post as [|[k r] post IH]; intros acc H; [exact H|].
  cbn [fold_left fst snd]. apply IH. unfold dropIfFor.
  destruct (String.eqb _ _); [now apply oneActive_delete | exact H].
Qed.

Lemma oneActive_expire_loop events now (post : JsMap.t JoinRequest.t)
    (acc : JsMap.t JoinRequest.t) (n : nat) :
  oneActivePerPair acc ->
  oneActivePerPair (fst (forEach (expireOne events now) post (acc, n))).
Proof.
  unfold forEach. revert acc n.
  induction post as [|[k r] post IH]; intros acc n H; [exact H|].
  cbn [fold_left fst snd]. unfold expireOne at 2.
  destruct (expires events now r); apply IH; [|exact H].
  now apply oneActive_set_inactive.
Qed.

Lemma activeFor_accepted u e r now :
  JoinRequest.status r = PENDING ->
  activeFor u e (withStatus r ACCEPTED now) = activeFor u e r.
Proof.
  intros P. unfold activeFor, active. cbn [withStatus JoinRequest.status
    JoinRequest.userId JoinRequest.eventId]. now rewrite P.
Qed.

Lemma status_eqb_eq a b : status_eqb a b = true <-> a = b.
Proof. destruct a, b; simpl; split; congruence. Qed.

Lemma oneActive_exec (op : Op) (s : Store) :
  oneActivePerPair (requests s) -> oneActivePerPair (requests (exec op s)).
Proof.
  intros H. destruct op; unfold exec.
  - unfold registerUserAtom. unfold_action. guard_cases; exact H.
  - unfold loginUserAtom. unfold_action. guard_cases; exact H.
  - exact H.
  - intros u e. cbn. lia.
  - unfold createEventAtom. unfold_action. guard_cases; exact H.
  - unfold updateEventAtom. unfold_action. guard_cases; exact H.
  - unfold deleteEventAtom. unfold_action. guard_cases; unfold_action;
      try exact H.
    now apply oneActive_delete_loop.
  - unfold createJoinRequestAtom. unfold_action. guard_cases; unfold_action;
      try exact H.
    apply oneActive_set_first; [|exact H].
    cbn [JoinRequest.userId JoinRequest.eventId].
    now apply count_zero_of_find_None.
  - unfold acceptJoinRequestAtom. unfold_action. guard_cases; unfold_action;
      try exact H.
    match goal with
    | G : get requestId (requests s) = Some ?r,
      P : status_eqb (JoinRequest.status ?r) PENDING = true |- _ =>
        apply status_eqb_eq in P;
        apply (oneActive_set_alike requestId _ r _ G); [|exact H];
        intros ? ?; now apply activeFor_accepted
    end.
  - unfold rejectJoinRequestAtom. unfold_action. guard_cases; unfold_action;
      try exact H.
    now apply oneActive_set_inactive.
  - unfold cancelJoinRequestAtom. unfold_action. guard_cases; unfold_action;
      try exact H.
    now apply oneActive_set_inactive.
  - unfold expirePendingRequestsAtom. unfold_action.
    pose proof (oneActive_expire_loop (events s) now (requests s) (requests s) 0 H)
      as L.
    destruct (forEach (expireOne (events s) now) (requests s) (requests s, 0))
      as [updatedRequests expiredCount].
    guard_cases; unfold_action; [exact L | exact H].
Qed.

End OneActive.

Lemma count_pos_of_get (p : JoinRequest.t -> bool) (m : JsMap.t JoinRequest.t) k r :
  JsMap.get k m = Some r -> p r = true -> 1 <= JsMap.count p m.
Proof.
  unfold JsMap.count. induction m as [|[k0 v0] m IH]; simpl; [discriminate|].
  destruct (String.eqb k k0).
  - intros [= ->] P. rewrite P. simpl. lia.
  - intros G P. specialize (IH G P). destruct (p v0); simpl; lia.
Qed.

Lemma count_two_of_gets (p : JoinRequest.t -> bool) (m : JsMap.t JoinRequest.t)
    k1 k2 r1 r2 :
  k1 <> k2 ->
  JsMap.get k1 m = Some r1 -> JsMap.get k2 m = Some r2 ->
  p r1 = true -> p r2 = true -> 2 <= JsMap.count p m.
Proof.
  intros N. unfold JsMap.count.
  induction m as [|[k0 v0] m IH]; simpl; [discriminate|].
  destruct (String.eqb k1 k0) eqn:E1; destruct (String.eqb k2 k0) eqn:E2.
  - apply String.eqb_eq in E1, E2. congruence.
  - intros [= ->] G2 P1 P2. rewrite P1.
    pose proof (count_pos_of_get p m k2 r2 G2 P2) as L.
    unfold JsMap.count in L. simpl. lia.
  - intros G1 [= ->] P1 P2. rewrite P2.
    pose proof (count_pos_of_get p m k1 r1 G1 P1) as L.
    unfold JsMap.count in L. simpl. lia.
  - intros G1 G2 P1 P2. specialize (IH G1 G2 P1 P2).
    destruct (p v0); simpl; lia.
Qed.

(** C2: every call of an action atom (createJoinRequest, acceptJoinRequest,
    rejectJoinRequest, cancelJoinRequest, expirePendingRequests, deleteEvent
    and the others) keeps "for every (user, event) pair at most one stored
    request of that user for that event is PENDING or ACCEPTED", whether the
    call returns or throws; hence it holds in every store reached from the
    initial, empty one. *)
Theorem C2_at_most_one_active_request_per_pair :
  (forall op s, oneActivePerPair (requests s) ->
                oneActivePerPair (requests (exec op s)))
  /\ (forall s, reachable s -> oneActivePerPair (requests s))
  /\ (forall s k1 k2 r1 r2,
         reachable s ->
         JsMap.get k1 (requests s) = Some r1 ->
         JsMap.get k2 (requests s) = Some r2 ->
         JoinRequest.userId r1 = JoinRequest.userId r2 ->
         JoinRequest.eventId r1 = JoinRequest.eventId r2 ->
         active r1 = true -> active r2 = true ->
         k1 = k2).
Proof.
  assert (R : forall s, reachable s -> oneActivePerPair (requests s)).
  { induction 1 as [|op s _ IH].
    - intros u e. cbn. lia.
    - now apply oneActive_exec. }
  split; [exact oneActive_exec|]. split; [exact R|].
  intros s k1 k2 r1 r2 Rs G1 G2 Eu Ee A1 A2.
  destruct (string_dec k1 k2) as [E|N]; [exact E|exfalso].
  pose proof (R s Rs (JoinRequest.userId r1) (JoinRequest.eventId r1)) as L.
  assert (P1 : activeFor (JoinRequest.userId r1) (JoinRequest.eventId r1) r1 = true).
  { unfold activeFor. now rewrite !String.eqb_refl, A1. }
  assert (P2 : activeFor (JoinRequest.userId r1) (JoinRequest.eventId r1) r2 = true).
  { unfold activeFor. now rewrite Eu, Ee, !String.eqb_refl, A2. }
  pose proof (count_two_of_gets _ _ _ _ _ _ N G1 G2 P1 P2). lia.
Qed.

(* ------------------------------------------------------------------------- *)
(** * Join eligibility *)

(** The first half of C5, which the code does satisfy: for a stored event
    with [startTime <= now] the answer is "Event has already started",
    whoever asks and whatever the requests are. *)
Lemma canJoin_started (s : Store) now eventId userId event :
  JsMap.get eventId (events s) = Some event ->
  (SportingEvent.startTime event <= now)%Z ->
  canJoinEventAtom s now eventId userId = cannot "Event has already started".
Proof.
  intros G L. unfold canJoinEventAtom. cbn [read eventsAtom]. rewrite G.
  apply Z.leb_le in L. now rewrite L.
Qed.

Lemma canJoin_started_witness :
  canJoinEventAtom Sample.fullEvent 100 "e1" "ua" = cannot "Event has already started".
Proof.
  apply (canJoin_started Sample.fullEvent 100 "e1" "ua"
           (newEventOf (Sample.football 100 200 1) "e1" 10 "ua")).
  - reflexivity.
  - vm_compute. discriminate.
Defined.

Lemma canJoin_missing (s : Store) now eventId userId :
  JsMap.get eventId (events s) = None ->
  canJoinEventAtom s now eventId userId = cannot "Event not found".
Proof.
  intros G. unfold canJoinEventAtom. cbn [read eventsAtom]. now rewrite G.
Qed.

Lemma canJoin_organizer (s : Store) now eventId userId event :
  JsMap.get eventId (events s) = Some event ->
  (now < SportingEvent.startTime event)%Z ->
  SportingEvent.organizerId event = userId ->
  canJoinEventAtom s now eventId userId = cannot "You are the organizer".
Proof.
  intros G L O. unfold canJoinEventAtom. cbn [read eventsAtom]. rewrite G.
  apply Z.leb_gt in L. rewrite L. apply String.eqb_eq in O. now rewrite O.
Qed.

Lemma find_active_of_first_active u e (l : list JoinRequest.t) r :
  find (requestOf u e) l = Some r -> active r = true ->
  find (activeFor u e) l = Some r.
Proof.
  induction l as [|x l IH]; simpl; [discriminate|].
  unfold activeFor at 1. fold (requestOf u e x).
  destruct (requestOf u e x) eqn:Q.
  - intros [= ->] A. now rewrite A.
  - intros F A. simpl. now apply IH.
Qed.

Lemma find_active_None_of_find_None u e (l : list JoinRequest.t) :
  find (requestOf u e) l = None -> find (activeFor u e) l = None.
Proof.
  induction l as [|x l IH]; simpl; [reflexivity|].
  unfold activeFor at 1. fold (requestOf u e x).
  destruct (requestOf u e x); [discriminate|]. simpl. exact IH.
Qed.

(** Where the code and the specified check agree: when the first request of
    the user for the event, in Map order, is active, or the user has no
    active request for the event. *)
Lemma canJoin_as_specified_when_first_request_decides
    (s : Store) now eventId userId :
  (forall r, find (requestOf userId eventId) (JsMap.values (requests s)) = Some r ->
             active r = false ->
             find (activeFor userId eventId) (JsMap.values (requests s)) = None) ->
  canJoinEventAtom s now eventId userId = canJoinAsSpecified s now eventId userId.
Proof.
  intros Hfirst. unfold canJoinEventAtom, canJoinAsSpecified.
  cbn [read eventsAtom requestsAtom].
  destruct (JsMap.get eventId (events s)) as [event|]; [|reflexivity].
  destruct (_ <=? _)%Z; [reflexivity|].
  destruct (String.eqb _ _); [reflexivity|].
  fold (requestOf userId eventId).
  destruct (find (requestOf userId eventId) (JsMap.values (requests s)))
    as [r|] eqn:F.
  - destruct (active r) eqn:A.
    + rewrite (find_active_of_first_active _ _ _ _ F A).
      unfold active in A. destruct (JoinRequest.status r); simpl in *;
        congruence.
    + rewrite (Hfirst r eq_refl A).
      unfold active in A. destruct (JoinRequest.status r); simpl in *;
        congruence.
  - now rewrite (find_active_None_of_find_None _ _ _ F).
Qed.

(** C5, where the code departs from it.  The store [Sample.askedAgain] is
    reached from the initial one (bob asks to join e1, alice rejects, bob
    asks again).  There bob holds a PENDING request for e1, the event has
    not started, bob is not the organizer and the event is not full: the
    fourth condition is the first that fails.  [canJoinEventAtom] answers
    that bob can join, because its [find] stops at bob's earlier, REJECTED
    request; the check as specified answers "You have a pending request",
    and so does [createJoinRequestAtom], whose [find] tests the status. *)
Theorem C5_canJoin_overlooks_a_later_active_request :
  reachable Sample.askedAgain
  /\ JsMap.get "r2" (requests Sample.askedAgain)
     = Some {| JoinRequest.id := "r2"; JoinRequest.userId := "ub";
               JoinRequest.eventId := "e1"; JoinRequest.createdAt := 40;
               JoinRequest.updatedAt := 40; JoinRequest.status := PENDING |}
  /\ canJoinEventAtom Sample.askedAgain 50 "e1" "ub"
     = {| CanJoin.canJoin := true; CanJoin.reason := None |}
  /\ canJoinAsSpecified Sample.askedAgain 50 "e1" "ub"
     = cannot "You have a pending request"
  /\ fst (createJoinRequestAtom "e1" "r3" 50 Sample.askedAgain)
     = Thrown "You already have a pending request".
Proof.
  split; [exact askedAgain_reachable|]. repeat split.
Qed.

(* ------------------------------------------------------------------------- *)
(** * Further properties of the action atoms *)

Ltac unfold_atoms :=
  unfold registerUserAtom, loginUserAtom, logoutUserAtom, clearAllDataAtom,
    createEventAtom, updateEventAtom, deleteEventAtom, createJoinRequestAtom,
    acceptJoinRequestAtom, rejectJoinRequestAtom, cancelJoinRequestAtom,
    expirePendingRequestsAtom.

Lemma throw_keeps_store (op : Op) (s : Store) :
  succeeds op s = false -> exec op s = s.
Proof.
  destruct op; unfold succeeds, exec, returns; unfold_atoms; unfold_action;
    try (destruct (JsMap.forEach _ _ _) as [updatedRequests expiredCount]);
    guard_cases; unfold_action; try discriminate; reflexivity.
Qed.

(** A call that throws leaves the store as it was: in every action atom the
    [throw]s come before the first [set]; register, login, logout,
    clearAllData and the sweep never throw. *)
Theorem thrown_call_changes_nothing (op : Op) (s : Store) :
  succeeds op s = false ->
  exec op s = s
  /\ match op with
     | Register _ _ _ _ | Login _ _ | Logout | ClearAllData
     | ExpirePendingRequests _ => False
     | _ => True
     end.
Proof.
  intros T. split; [now apply throw_keeps_store|].
  destruct op; try exact I; unfold succeeds, returns in T; revert T;
    unfold_atoms; unfold_action;
    try (destruct (JsMap.forEach _ _ _) as [updatedRequests expiredCount];
         destruct (0 <? expiredCount)%nat);
    guard_cases; unfold_action; discriminate.
Qed.

Lemma thrown_call_changes_nothing_witness :
  exec (AcceptJoinRequest "r2" 50) Sample.fullEvent = Sample.fullEvent.
Proof.
  apply (thrown_call_changes_nothing (AcceptJoinRequest "r2" 50) Sample.fullEvent).
  reflexivity.
Defined.

Lemma tryCatch_failure {A} (action : Action A) (s : Store) error :
  fst (tryCatch action s) = Failure error -> action s = (Thrown error, snd (action s)).
Proof.
  unfold tryCatch. destruct (action s) as [[value|message] s']; cbn [fst snd];
    [discriminate | now intros [= ->]].
Qed.

Lemma tryCatch_store {A} (action : Action A) (s : Store) :
  snd (tryCatch action s) = snd (action s).
Proof.
  unfold tryCatch. now destruct (action s) as [[value|message] s'].
Qed.

Ltac failed_hook op s F :=
  let T := fresh "T" in
  let K := fresh "K" in
  unfold useCreateEvent, useUpdateEvent, useDeleteEvent, useJoinEvent,
    useAcceptRequest, useRejectRequest, useCancelRequest in *;
  pose proof (tryCatch_failure _ _ _ F) as T;
  pose proof (throw_keeps_store op s) as K;
  unfold succeeds, exec, returns in K;
  rewrite T in K; cbn [fst snd] in K; specialize (K eq_refl);
  rewrite K in T;
  first [ exact T | rewrite tryCatch_store; exact K ].

(** When an action hook resolves to [{ success: false, error }], the atom
    threw that error and the store is as it was before the call. *)
Theorem failed_hook_changes_nothing (s : Store) (error : string) :
  (forall eventData uuid now,
      fst (useCreateEvent eventData uuid now s) = Failure error ->
      createEventAtom eventData uuid now s = (Thrown error, s)
      /\ snd (useCreateEvent eventData uuid now s) = s)
  /\ (forall eventId updates,
         fst (useUpdateEvent eventId updates s) = Failure error ->
         updateEventAtom eventId updates s = (Thrown error, s)
         /\ snd (useUpdateEvent eventId updates s) = s)
  /\ (forall eventId,
         fst (useDeleteEvent eventId s) = Failure error ->
         deleteEventAtom eventId s = (Thrown error, s)
         /\ snd (useDeleteEvent eventId s) = s)
  /\ (forall eventId uuid now,
         fst (useJoinEvent eventId uuid now s) = Failure error ->
         createJoinRequestAtom eventId uuid now s = (Thrown error, s)
         /\ snd (useJoinEvent eventId uuid now s) = s)
  /\ (forall requestId now,
         fst (useAcceptRequest requestId now s) = Failure error ->
         acceptJoinRequestAtom requestId now s = (Thrown error, s)
         /\ snd (useAcceptRequest requestId now s) = s)
  /\ (forall requestId now,
         fst (useRejectRequest requestId now s) = Failure error ->
         rejectJoinRequestAtom requestId now s = (Thrown error, s)
         /\ snd (useRejectRequest requestId now s) = s)
  /\ (forall requestId now now',
         fst (useCancelRequest requestId now now' s) = Failure error ->
         cancelJoinRequestAtom requestId now now' s = (Thrown error, s)
         /\ snd (useCancelRequest requestId now now' s) = s).
Proof.
  repeat split; intros.
  all: match goal with
       | F : fst (useCreateEvent ?d ?u ?n ?st) = _ |- _ =>
           failed_hook (CreateEvent d u n) st F
       | F : fst (useUpdateEvent ?e ?u ?st) = _ |- _ =>
           failed_hook (UpdateEvent e u) st F
       | F : fst (useDeleteEvent ?e ?st) = _ |- _ =>
           failed_hook (DeleteEvent e) st F
       | F : fst (useJoinEvent ?e ?u ?n ?st) = _ |- _ =>
           failed_hook (CreateJoinRequest e u n) st F
       | F : fst (useAcceptRequest ?r ?n ?st) = _ |- _ =>
           failed_hook (AcceptJoinRequest r n) st F
       | F : fst (useRejectRequest ?r ?n ?st) = _ |- _ =>
           failed_hook (RejectJoinRequest r n) st F
       | F : fst (useCancelRequest ?r ?n ?n' ?st) = _ |- _ =>
           failed_hook (CancelJoinRequest r n n') st F
       end.
Qed.

(** With nobody signed in (flag unset, or id [null] or empty), every atom
    that creates, changes or deletes an event or a request throws its
    "must be authenticated" error and changes nothing. *)
Theorem signed_out_calls_throw (s : Store) :
  signedIn (auth s) = None ->
  (forall eventData uuid now,
      createEventAtom eventData uuid now s
      = (Thrown "User must be authenticated to create an event", s))
  /\ (forall eventId updates,
         updateEventAtom eventId updates s = (Thrown "User must be authenticated", s))
  /\ (forall eventId,
         deleteEventAtom eventId s = (Thrown "User must be authenticated", s))
  /\ (forall eventId uuid now,
         createJoinRequestAtom eventId uuid now s
         = (Thrown "User must be authenticated to join an event", s))
  /\ (forall requestId now,
         acceptJoinRequestAtom requestId now s
         = (Thrown "User must be authenticated", s))
  /\ (forall requestId now,
         rejectJoinRequestAtom requestId now s
         = (Thrown "User must be authenticated", s))
  /\ (forall requestId now now',
         cancelJoinRequestAtom requestId now now' s
         = (Thrown "User must be authenticated", s)).
Proof.
  intros A. repeat split; intros; unfold_atoms; unfold_action; now rewrite A.
Qed.

Lemma signed_out_calls_throw_witness :
  createJoinRequestAtom "e1" "r9" 5 (snd (logoutUserAtom Sample.fullEvent))
  = (Thrown "User must be authenticated to join an event",
     snd (logoutUserAtom Sample.fullEvent)).
Proof.
  destruct (signed_out_calls_throw (snd (logoutUserAtom Sample.fullEvent)) eq_refl)
    as (_ & _ & _ & H & _).
  exact (H "e1" "r9" 5%Z).
Defined.

(** A call returns only for the user entitled to it: update and delete for
    the signed-in organizer of the stored event, accept and reject for the
    signed-in organizer of the request's event, cancel for the signed-in
    requester, create for any signed-in user. *)
Theorem returning_call_is_authorized (op : Op) (s : Store) :
  succeeds op s = true -> authorized op s.
Proof.
  destruct op; unfold succeeds, returns, authorized; try exact (fun _ => I);
    unfold_atoms; unfold_action; guard_cases; unfold_action;
    try discriminate; intros _;
    repeat match goal with
      | H : String.eqb _ _ = true |- _ => apply String.eqb_eq in H
      end;
    eauto 10.
Qed.

Lemma returning_call_is_authorized_witness :
  authorized (AcceptJoinRequest "r1" 40)
    (run (firstn 10 Sample.fullEventOps) initialStore).
Proof.
  apply (returning_call_is_authorized (AcceptJoinRequest "r1" 40)
           (run (firstn 10 Sample.fullEventOps) initialStore)).
  reflexivity.
Defined.

(* ------------------------------------------------------------------------- *)
(** * Asking to join *)

Lemma find_None_count_zero (p : JoinRequest.t -> bool) (l : list JoinRequest.t) :
  find p l = None <-> List.length (filter p l) = 0.
Proof.
  induction l as [|x l IH]; simpl; [tauto|].
  destruct (p x); simpl; [split; discriminate | exact IH].
Qed.

Lemma createJoinRequest_thrown (s s' : Store) eventId uuid now message :
  createJoinRequestAtom eventId uuid now s = (Thrown message, s') -> s' = s.
Proof.
  unfold createJoinRequestAtom. unfold_action. guard_cases; unfold_action;
    try discriminate; now intros [= _ <-].
Qed.

Lemma createJoinRequest_returned (s : Store) eventId uuid now request :
  fst (createJoinRequestAtom eventId uuid now s) = Returned request ->
  exists uid event,
    signedIn (auth s) = Some uid
    /\ JsMap.get eventId (events s) = Some event
    /\ (now < SportingEvent.startTime event)%Z
    /\ SportingEvent.organizerId event <> uid
    /\ JsMap.count (activeFor uid eventId) (requests s) = 0
    /\ (Z.of_nat (acceptedCount eventId (requests s)) < SportingEvent.maxPlayers event)%Z
    /\ request = {| JoinRequest.id := uuid; JoinRequest.userId := uid;
                    JoinRequest.eventId := eventId; JoinRequest.createdAt := now;
                    JoinRequest.updatedAt := now; JoinRequest.status := PENDING |}.
Proof.
  unfold createJoinRequestAtom. unfold_action.
  destruct (signedIn (auth s)) as [uid|]; [|discriminate].
  destruct (JsMap.get eventId (events s)) as [event|]; [|discriminate].
  destruct (SportingEvent.startTime event <=? now)%Z eqn:St; [discriminate|].
  destruct (String.eqb (SportingEvent.organizerId event) uid) eqn:Og;
    [discriminate|].
  change (fun req : JoinRequest.t =>
            String.eqb (JoinRequest.eventId req) eventId
            && String.eqb (JoinRequest.userId req) uid
            && (status_eqb (JoinRequest.status req) PENDING
                || status_eqb (JoinRequest.status req) ACCEPTED))
    with (activeFor uid eventId).
  destruct (find (activeFor uid eventId) (JsMap.values (requests s))) eqn:F;
    [discriminate|].
  destruct (isFull eventId (requests s) event) eqn:Fu; [discriminate|].
  unfold_action. intros [= <-]. exists uid, event.
  apply Z.leb_gt in St. apply String.eqb_neq in Og.
  apply find_None_count_zero in F. unfold isFull in Fu. apply Z.leb_gt in Fu.
  repeat split; auto.
Qed.

(** createJoinRequest returns exactly when a user is signed in, the event
    is stored and starts after [now], the user is not its organizer and
    holds no PENDING or ACCEPTED request for it, and fewer than
    [maxPlayers] requests for it are ACCEPTED; the request it returns is
    PENDING, is the caller's, carries [now] twice, and is stored under the
    generated id. *)
Theorem createJoinRequest_returns_iff
    (s : Store) (eventId : EventId) (uuid : RequestId) (now : Z)
    (request : JoinRequest.t) :
  (fst (createJoinRequestAtom eventId uuid now s) = Returned request
   <->
   exists uid event,
    signedIn (auth s) = Some uid
    /\ JsMap.get eventId (events s) = Some event
    /\ (now < SportingEvent.startTime event)%Z
    /\ SportingEvent.organizerId event <> uid
    /\ JsMap.count (activeFor uid eventId) (requests s) = 0
    /\ (Z.of_nat (acceptedCount eventId (requests s)) < SportingEvent.maxPlayers event)%Z
    /\ request = {| JoinRequest.id := uuid; JoinRequest.userId := uid;
                    JoinRequest.eventId := eventId; JoinRequest.createdAt := now;
                    JoinRequest.updatedAt := now; JoinRequest.status := PENDING |})
  /\ (fst (createJoinRequestAtom eventId uuid now s) = Returned request ->
      snd (createJoinRequestAtom eventId uuid now s)
      = write requestsAtom (JsMap.set uuid request (requests s)) s).
Proof.
  split; [split|].
  - apply createJoinRequest_returned.
  - unfold createJoinRequestAtom. unfold_action.
    intros (uid & event & A & G & St & Og & C & Fu & ->).
    rewrite A, G. apply Z.leb_gt in St. rewrite St.
    apply String.eqb_neq in Og. rewrite Og.
    change (fun req : JoinRequest.t =>
              String.eqb (JoinRequest.eventId req) eventId
              && String.eqb (JoinRequest.userId req) uid
              && (status_eqb (JoinRequest.status req) PENDING
                  || status_eqb (JoinRequest.status req) ACCEPTED))
      with (activeFor uid eventId).
    apply find_None_count_zero in C. rewrite C.
    unfold isFull. apply Z.leb_gt in Fu. now rewrite Fu.
  - unfold createJoinRequestAtom. unfold_action.
    guard_cases; unfold_action; try discriminate. now intros [= <-].
Qed.

Lemma find_first_inactive u e (l : list JoinRequest.t) first :
  find (requestOf u e) l = Some first ->
  find (activeFor u e) l = None ->
  active first = false.
Proof.
  intros F N. destruct (find_some _ _ F) as [I Q].
  pose proof (find_none _ _ N first I) as Z.
  unfold activeFor in Z. fold (requestOf u e first) in Z. now rewrite Q in Z.
Qed.

Lemma canJoin_when_join_returns
    (s : Store) (eventId : EventId) (uuid : RequestId) (now : Z) (uid : UserId)
    (request : JoinRequest.t) :
  signedIn (auth s) = Some uid ->
  fst (createJoinRequestAtom eventId uuid now s) = Returned request ->
  canJoinEventAtom s now eventId uid = can.
Proof.
  intros A R.
  apply createJoinRequest_returned in R.
  destruct R as (uid' & event & A' & G & St & Og & C & Fu & _).
  assert (uid' = uid) by congruence. subst uid'.
  unfold canJoinEventAtom. cbn [read eventsAtom requestsAtom]. rewrite G.
  apply Z.leb_gt in St. rewrite St. apply String.eqb_neq in Og. rewrite Og.
  assert (NF : isFull eventId (requests s) event = false)
    by (unfold isFull; now apply Z.leb_gt).
  rewrite NF. fold (requestOf uid eventId).
  apply find_None_count_zero in C.
  destruct (find (requestOf uid eventId) (JsMap.values (requests s)))
    as [first|] eqn:F; [|reflexivity].
  pose proof (find_first_inactive _ _ _ _ F C) as I. unfold active in I.
  apply orb_false_iff in I. destruct I as [P Ac]. now rewrite P, Ac.
Qed.

(** When [canJoinEventAtom] refuses the signed-in user, asked at the same
    time, createJoinRequest throws and changes nothing: the check never
    turns away a request that would have been taken.  (The converse fails:
    see C5.) *)
Theorem canJoin_refusal_means_join_throws
    (s : Store) (eventId : EventId) (uuid : RequestId) (now : Z) (uid : UserId) :
  signedIn (auth s) = Some uid ->
  CanJoin.canJoin (canJoinEventAtom s now eventId uid) = false ->
  exists message, createJoinRequestAtom eventId uuid now s = (Thrown message, s).
Proof.
  intros A Refused.
  destruct (createJoinRequestAtom eventId uuid now s) as [[request|message] s'] eqn:E.
  - rewrite (canJoin_when_join_returns s eventId uuid now uid request A) in Refused;
      [discriminate | now rewrite E].
  - exists message. now rewrite (createJoinRequest_thrown _ _ _ _ _ _ E).
Qed.

Lemma canJoin_refusal_means_join_throws_witness :
  exists message,
    createJoinRequestAtom "e1" "r9" 50
      (snd (loginUserAtom "carol" "c-secret" Sample.fullEvent))
    = (Thrown message, snd (loginUserAtom "carol" "c-secret" Sample.fullEvent)).
Proof.
  apply (canJoin_refusal_means_join_throws
           (snd (loginUserAtom "carol" "c-secret" Sample.fullEvent))
           "e1" "r9" 50 "uc"); reflexivity.
Defined.

(* ------------------------------------------------------------------------- *)
(** * Accepted players and capacity *)

Lemma acceptedCount_count k (m : JsMap.t JoinRequest.t) :
  acceptedCount k m = JsMap.count (acceptedFor k) m.
Proof. reflexivity. Qed.

Lemma count_delete_loop_le (p : JoinRequest.t -> bool) eventId
    (post acc : JsMap.t JoinRequest.t) :
  JsMap.count p (JsMap.forEach (dropIfFor eventId) post acc) <= JsMap.count p acc.
Proof.
  unfold JsMap.forEach. revert acc.
  induction post as [|[k r] post IH]; intros acc; [apply Nat.le_refl|].
  cbn [fold_left fst snd]. etransitivity; [apply IH|]. unfold dropIfFor.
  destruct (String.eqb _ _); [apply JsMapFacts.count_delete_le | apply Nat.le_refl].
Qed.

Lemma count_expire_loop_le (p : JoinRequest.t -> bool) events now
    (post acc : JsMap.t JoinRequest.t) (n : nat) :
  (forall r, p (withStatus r EXPIRED now) = false) ->
  JsMap.count p (fst (JsMap.forEach (expireOne events now) post (acc, n)))
  <= JsMap.count p acc.
Proof.
  intros Hp. unfold JsMap.forEach. revert acc n.
  induction post as [|[k r] post IH]; intros acc n; [apply Nat.le_refl|].
  cbn [fold_left fst snd]. unfold expireOne at 2.
  destruct (expires events now r); [|apply IH].
  etransitivity; [apply IH|].
  pose proof (JsMapFacts.count_set_le p k (withStatus r EXPIRED now) acc) as L.
  rewrite Hp in L. simpl in L. lia.
Qed.

Lemma acceptedFor_withStatus k r status now :
  acceptedFor k (withStatus r status now)
  = String.eqb (JoinRequest.eventId r) k && status_eqb status ACCEPTED.
Proof. reflexivity. Qed.

Lemma acceptedCount_after_exec (op : Op) (s : Store) (k : EventId) :
  acceptedCount k (requests (exec op s))
  <= acceptedCount k (requests s) + (if isAccept op then 1 else 0).
Proof.
  rewrite !acceptedCount_count.
  destruct op; unfold exec, isAccept; unfold_atoms; unfold_action;
    rewrite ?Nat.add_0_r.
  - guard_cases; apply Nat.le_refl.
  - guard_cases; apply Nat.le_refl.
  - apply Nat.le_refl.
  - cbn. lia.
  - guard_cases; apply Nat.le_refl.
  - guard_cases; apply Nat.le_refl.
  - guard_cases; unfold_action; try apply Nat.le_refl.
    apply count_delete_loop_le.
  - guard_cases; unfold_action; try apply Nat.le_refl.
    etransitivity; [apply JsMapFacts.count_set_le|].
    rewrite acceptedFor_withStatus || (unfold acceptedFor; cbn [JoinRequest.status]).
    cbn [status_eqb]. rewrite ?andb_false_r. simpl. lia.
  - guard_cases; unfold_action; try lia.
    etransitivity; [apply JsMapFacts.count_set_le|].
    destruct (acceptedFor k _); simpl; lia.
  - guard_cases; unfold_action; try apply Nat.le_refl.
    etransitivity; [apply JsMapFacts.count_set_le|].
    rewrite acceptedFor_withStatus. cbn [status_eqb]. rewrite andb_false_r.
    simpl. lia.
  - guard_cases; unfold_action; try apply Nat.le_refl.
    etransitivity; [apply JsMapFacts.count_set_le|].
    rewrite acceptedFor_withStatus. cbn [status_eqb]. rewrite andb_false_r.
    simpl. lia.
  - pose proof (count_expire_loop_le (acceptedFor k) (events s) now
                  (requests s) (requests s) 0) as L.
    destruct (JsMap.forEach (expireOne (events s) now) (requests s) (requests s, 0))
      as [updatedRequests expiredCount].
    guard_cases; unfold_action; [|apply Nat.le_refl].
    apply L. intros r. rewrite acceptedFor_withStatus. cbn [status_eqb].
    apply andb_false_r.
Qed.

(** The number of ACCEPTED requests of an event grows only through
    acceptJoinRequest, and then by one at most: after any other call, for
    every event, it is at most what it was, whether the call returned or
    threw. *)
Theorem accepted_count_grows_only_by_accept (op : Op) (s : Store) :
  (forall k, acceptedCount k (requests (exec op s))
             <= acceptedCount k (requests s) + 1)
  /\ (isAccept op = false ->
      forall k, acceptedCount k (requests (exec op s))
                <= acceptedCount k (requests s)).
Proof.
  split.
  - intros k. pose proof (acceptedCount_after_exec op s k) as L.
    destruct (isAccept op); lia.
  - intros N k. pose proof (acceptedCount_after_exec op s k) as L.
    rewrite N in L. lia.
Qed.

(** acceptJoinRequest returns exactly when the signed-in user organizes the
    stored event of the stored request, the request is PENDING and fewer
    than [maxPlayers] requests of the event are ACCEPTED.  It then stores
    the request as ACCEPTED with [updatedAt = now], which adds exactly one
    to the ACCEPTED requests of that event and none to any other. *)
Theorem acceptJoinRequest_returns_iff
    (s : Store) (requestId : RequestId) (now : Z) (accepted : JoinRequest.t) :
  (fst (acceptJoinRequestAtom requestId now s) = Returned accepted
   <->
   exists uid request event,
     signedIn (auth s) = Some uid
     /\ JsMap.get requestId (requests s) = Some request
     /\ JsMap.get (JoinRequest.eventId request) (events s) = Some event
     /\ SportingEvent.organizerId event = uid
     /\ JoinRequest.status request = PENDING
     /\ (Z.of_nat (acceptedCount (JoinRequest.eventId request) (requests s))
         < SportingEvent.maxPlayers event)%Z
     /\ accepted = withStatus request ACCEPTED now)
  /\ (fst (acceptJoinRequestAtom requestId now s) = Returned accepted ->
      snd (acceptJoinRequestAtom requestId now s)
      = write requestsAtom (JsMap.set requestId accepted (requests s)) s
      /\ acceptedCount (JoinRequest.eventId accepted)
           (requests (snd (acceptJoinRequestAtom requestId now s)))
         = S (acceptedCount (JoinRequest.eventId accepted) (requests s))
      /\ forall k, k <> JoinRequest.eventId accepted ->
                   acceptedCount k (requests (snd (acceptJoinRequestAtom requestId now s)))
                   = acceptedCount k (requests s)).
Proof.
  unfold acceptJoinRequestAtom. unfold_action. split; [split|].
  - guard_cases; unfold_action; try discriminate. intros [= <-].
    repeat match goal with
      | H : String.eqb _ _ = true |- _ => apply String.eqb_eq in H
      | H : status_eqb _ _ = true |- _ => apply status_eqb_eq in H
      | H : isFull _ _ _ = false |- _ => unfold isFull in H; apply Z.leb_gt in H
      end.
    eauto 12.
  - intros (uid & request & event & A & G & Ge & O & P & Fu & ->).
    rewrite A, G, Ge. apply String.eqb_eq in O. rewrite O, P.
    cbn [negb status_eqb]. unfold isFull. apply Z.leb_gt in Fu. now rewrite Fu.
  - guard_cases; unfold_action; try discriminate. intros [= <-].
    match goal with
    | G : JsMap.get requestId (requests s) = Some ?r,
      P : status_eqb (JoinRequest.status ?r) PENDING = true |- _ =>
        apply status_eqb_eq in P; rename r into request; rename G into Gr;
        rename P into Pr
    end.
    split; [reflexivity|].
    cbn [withStatus JoinRequest.eventId]. rewrite !acceptedCount_count. split.
    + pose proof (JsMapFacts.count_set_replace
                    (acceptedFor (JoinRequest.eventId request)) requestId
                    (withStatus request ACCEPTED now) request (requests s) Gr) as L.
      rewrite acceptedFor_withStatus, String.eqb_refl in L.
      unfold acceptedFor in L at 2. rewrite Pr in L. cbn [status_eqb] in L.
      rewrite andb_false_r in L. simpl in L. lia.
    + intros k N. rewrite !acceptedCount_count.
      pose proof (JsMapFacts.count_set_replace
                    (acceptedFor k) requestId
                    (withStatus request ACCEPTED now) request (requests s) Gr) as L.
      rewrite acceptedFor_withStatus in L.
      apply not_eq_sym, String.eqb_neq in N. rewrite N in L.
      unfold acceptedFor in L at 2. rewrite Pr in L. cbn [status_eqb] in L.
      rewrite andb_false_r in L. simpl in L. lia.
Qed.

Lemma get_set_cases {V} k k' (v : V) (m : JsMap.t V) x :
  JsMap.get k' (JsMap.set k v m) = Some x ->
  (k' = k /\ x = v) \/ (k' <> k /\ JsMap.get k' m = Some x).
Proof.
  destruct (string_dec k k') as [->|N].
  - rewrite JsMapFacts.get_set_same. intros [= <-]. now left.
  - rewrite (JsMapFacts.get_set_other _ _ _ _ N). intros G. right. split; congruence.
Qed.

Lemma get_delete_cases {V} k k' (m : JsMap.t V) x :
  JsMap.get k' (JsMap.delete k m) = Some x -> k' <> k /\ JsMap.get k' m = Some x.
Proof.
  destruct (string_dec k k') as [->|N].
  - now rewrite JsMapFacts.get_delete_same.
  - rewrite (JsMapFacts.get_delete_other _ _ _ N). intros G. split; congruence.
Qed.

(** "No event has more ACCEPTED requests than [maxPlayers]" is kept by every
    call, provided a createEvent or updateEvent does not itself store an
    event with fewer places than the players already accepted under its
    key; the request atoms and deleteEvent keep it unconditionally. *)
Theorem capacity_is_kept (op : Op) (s : Store) :
  keepsCapacity op s -> withinCapacity s -> withinCapacity (exec op s).
Proof.
  intros K W k event.
  pose proof (acceptedCount_after_exec op s k) as Grow.
  destruct op; unfold exec in *; unfold isAccept in Grow;
    rewrite ?Nat.add_0_r in Grow.
  - unfold_atoms. unfold_action. guard_cases; apply W.
  - unfold_atoms. unfold_action. guard_cases; apply W.
  - apply W.
  - discriminate.
  - revert Grow. unfold_atoms. unfold_action. guard_cases; unfold_action;
      try (intros _; apply W).
    intros _ G. apply get_set_cases in G. destruct G as [[-> ->]|[_ G]].
    + exact K.
    + now apply W.
  - revert Grow. unfold_atoms. unfold_action. guard_cases; unfold_action;
      try (intros _; apply W).
    intros _ G. apply get_set_cases in G. destruct G as [[-> ->]|[_ G]].
    + now apply K.
    + now apply W.
  - revert Grow. unfold_atoms. unfold_action. guard_cases; unfold_action;
      try (intros _; apply W).
    intros Grow G. apply get_delete_cases in G. destruct G as [_ G].
    specialize (W k event G). lia.
  - intros G.
    assert (G' : JsMap.get k (events s) = Some event).
    { revert G. unfold_atoms. unfold_action. guard_cases; auto. }
    specialize (W k event G'). lia.
  - revert Grow. unfold_atoms. unfold_action. guard_cases; unfold_action;
      try (intros _; apply W).
    intros _ G.
    match goal with
    | Gr : JsMap.get requestId (requests s) = Some ?r,
      P : status_eqb (JoinRequest.status ?r) PENDING = true,
      Ge : JsMap.get (JoinRequest.eventId ?r) (events s) = Some ?ev,
      Fu : isFull _ _ ?ev = false |- _ =>
        apply status_eqb_eq in P; unfold isFull in Fu; apply Z.leb_gt in Fu;
        pose proof (JsMapFacts.count_set_replace (acceptedFor k) requestId
                      (withStatus r ACCEPTED now) r (requests s) Gr) as L;
        rewrite acceptedFor_withStatus in L; unfold acceptedFor in L at 2;
        rewrite P in L; cbn [status_eqb] in L; rewrite andb_false_r in L;
        rewrite !acceptedCount_count in *;
        destruct (String.eqb (JoinRequest.eventId r) k) eqn:E;
        [ apply String.eqb_eq in E; subst k;
          assert (ev = event) by congruence; subst ev; simpl in L; lia
        | specialize (W k event G); rewrite acceptedCount_count in W;
          simpl in L; lia ]
    end.
  - intros G.
    assert (G' : JsMap.get k (events s) = Some event).
    { revert G. unfold_atoms. unfold_action. guard_cases; auto. }
    specialize (W k event G'). lia.
  - intros G.
    assert (G' : JsMap.get k (events s) = Some event).
    { revert G. unfold_atoms. unfold_action. guard_cases; auto. }
    specialize (W k event G'). lia.
  - intros G.
    assert (G' : JsMap.get k (events s) = Some event).
    { revert G. unfold_atoms. unfold_action.
      destruct (JsMap.forEach _ _ _) as [updatedRequests expiredCount].
      guard_cases; auto. }
    specialize (W k event G'). lia.
Qed.

Lemma capacity_is_kept_witness :
  withinCapacity (exec (AcceptJoinRequest "r1" 40)
                    (run (firstn 10 Sample.fullEventOps) initialStore)).
Proof.
  apply (capacity_is_kept (AcceptJoinRequest "r1" 40)
           (run (firstn 10 Sample.fullEventOps) initialStore)).
  - exact I.
  - intros k event G. apply JsMapFacts.get_Some_In in G. vm_compute in G.
    destruct G as [G|[]]. injection G as <- <-. vm_compute. discriminate.
Defined.

(* ------------------------------------------------------------------------- *)
(** * Registration and login *)

Lemma register_closed_form (s : Store) username password nanoid now :
  registerUserAtom username password nanoid now s
  = (Returned {| User.id := nanoid; User.username := username;
                 User.createdAt := now;
                 User.passwordHash := hashPassword password |},
     write authAtom (authenticated nanoid)
       (write usersAtom
          (JsMap.set nanoid
             {| User.id := nanoid; User.username := username;
                User.createdAt := now;
                User.passwordHash := hashPassword password |}
             (users s))
          (match find (hasUsername username) (JsMap.values (users s)) with
           | Some _ => logged "User already exist" s
           | None => s
           end))).
Proof.
  unfold registerUserAtom. unfold_action. fold (hasUsername username).
  destruct (find (hasUsername username) (JsMap.values (users s))); reflexivity.
Qed.

Lemma set_absent_appends {V} k (v : V) (m : JsMap.t V) :
  JsMap.get k m = None -> JsMap.set k v m = m ++ [(k, v)].
Proof.
  induction m as [|[k0 v0] m IH]; simpl; [reflexivity|].
  destruct (String.eqb k k0); [discriminate|]. intros G. now rewrite IH.
Qed.

Lemma find_app_first {A} (p : A -> bool) (l l' : list A) x :
  find p l = Some x -> find p (l ++ l') = Some x.
Proof.
  induction l as [|y l IH]; simpl; [discriminate|].
  destruct (p y); auto.
Qed.

Lemma find_after_set_only {V} (p : V -> bool) k (v : V) (m : JsMap.t V) :
  (forall x, In x (JsMap.values m) -> p x = false) ->
  p v = true ->
  find p (JsMap.values (JsMap.set k v m)) = Some v.
Proof.
  intros N P. induction m as [|[k0 v0] m IH]; simpl.
  - now rewrite P.
  - destruct (String.eqb k k0); simpl.
    + now rewrite P.
    + rewrite (N v0 (or_introl eq_refl)). apply IH.
      intros x I. apply N. now right.
Qed.

(** Registration never refuses: it returns the new user, stores it under
    the generated id and signs it in, also when the username is taken.  A
    user stored under another id with the same username stays, so two
    stored users then share the username, and "User already exist" is all
    that tells. *)
Theorem register_accepts_a_taken_username
    (s : Store) (username password : string) (nanoid : UserId) (now : Z)
    (k : UserId) (u0 : User.t) :
  JsMap.get k (users s) = Some u0 ->
  User.username u0 = username ->
  k <> nanoid ->
  exists newUser,
    fst (registerUserAtom username password nanoid now s) = Returned newUser
    /\ User.username newUser = username
    /\ JsMap.get nanoid (users (snd (registerUserAtom username password nanoid now s)))
       = Some newUser
    /\ JsMap.get k (users (snd (registerUserAtom username password nanoid now s)))
       = Some u0
    /\ auth (snd (registerUserAtom username password nanoid now s))
       = authenticated nanoid
    /\ console (snd (registerUserAtom username password nanoid now s))
       = console s ++ ["User already exist"].
Proof.
  intros G E N.
  assert (F : exists found,
             find (hasUsername username) (JsMap.values (users s)) = Some found).
  { destruct (find (hasUsername username) (JsMap.values (users s))) eqn:F;
      [eauto|].
    exfalso. apply JsMapFacts.get_Some_In in G.
    assert (I : In u0 (JsMap.values (users s))).
    { unfold JsMap.values. change u0 with (snd (k, u0)). now apply in_map. }
    pose proof (find_none _ _ F u0 I) as Z. unfold hasUsername in Z.
    apply String.eqb_neq in Z. contradiction. }
  destruct F as [found F].
  rewrite register_closed_form, F. eexists. cbn [fst snd].
  unfold_action. repeat split.
  - apply JsMapFacts.get_set_same.
  - rewrite JsMapFacts.get_set_other by congruence. exact G.
Qed.

Lemma register_accepts_a_taken_username_witness :
  exists newUser,
    fst (registerUserAtom "alice" "another" "ux" 9 Sample.twoUsers) = Returned newUser
    /\ User.username newUser = "alice".
Proof.
  destruct (register_accepts_a_taken_username
              Sample.twoUsers "alice" "another" "ux" 9 "ua"
              {| User.id := "ua"; User.username := "alice"; User.createdAt := 1;
                 User.passwordHash := "hashed_a-secret" |}
              eq_refl eq_refl ltac:(discriminate)) as (newUser & R & U & _).
  now exists newUser.
Defined.

(** After a second registration of a username under a new id, login with
    that username signs in the user registered first, whatever password is
    given: the second account, although stored, is never the one login
    finds. *)
Theorem login_finds_the_first_of_two_accounts
    (s : Store) (username password password' : string) (nanoid : UserId) (now : Z)
    (u0 : User.t) :
  find (hasUsername username) (JsMap.values (users s)) = Some u0 ->
  JsMap.get nanoid (users s) = None ->
  fst (loginUserAtom username password'
         (snd (registerUserAtom username password nanoid now s)))
  = Returned (Some u0)
  /\ auth (snd (loginUserAtom username password'
                  (snd (registerUserAtom username password nanoid now s))))
     = authenticated (User.id u0).
Proof.
  intros F G. rewrite register_closed_form. cbn [snd].
  match goal with
  | |- context [loginUserAtom _ _ ?st] =>
      assert (F' : find (fun u => String.eqb (User.username u) username)
                     (JsMap.values (users st)) = Some u0)
  end.
  { unfold_action. rewrite (set_absent_appends _ _ _ G).
    unfold JsMap.values. rewrite map_app. now apply find_app_first. }
  rewrite (login_found _ username password' u0 F'). split; reflexivity.
Qed.

Lemma login_finds_the_first_of_two_accounts_witness :
  fst (loginUserAtom "alice" "another"
         (snd (registerUserAtom "alice" "another" "ux" 9 Sample.twoUsers)))
  = Returned (Some {| User.id := "ua"; User.username := "alice";
                      User.createdAt := 1;
                      User.passwordHash := "hashed_a-secret" |}).
Proof.
  apply (login_finds_the_first_of_two_accounts
           Sample.twoUsers "alice" "another" "another" "ux" 9);
    reflexivity.
Defined.

(** Register, then login: when no stored user has the username, a login
    with the registered username and password returns the user just
    registered, signs it in and logs no "Invalid username or password". *)
Theorem login_after_register_of_a_new_username
    (s : Store) (username password : string) (nanoid : UserId) (now : Z) :
  (forall u, In u (JsMap.values (users s)) -> User.username u <> username) ->
  exists newUser,
    fst (registerUserAtom username password nanoid now s) = Returned newUser
    /\ loginUserAtom username password
         (snd (registerUserAtom username password nanoid now s))
       = (Returned (Some newUser),
          snd (registerUserAtom username password nanoid now s))
    /\ verifyPassword password (User.passwordHash newUser) = true.
Proof.
  intros N. rewrite register_closed_form. eexists. cbn [fst snd].
  split; [reflexivity|].
  assert (F0 : find (hasUsername username) (JsMap.values (users s)) = None).
  { destruct (find _ _) as [u|] eqn:F; [|reflexivity].
    destruct (find_some _ _ F) as [I E]. apply String.eqb_eq in E.
    now apply N in I. }
  rewrite F0.
  assert (V : verifyPassword password (hashPassword password) = true)
    by apply String.eqb_refl.
  split; [|exact V].
  match goal with
  | |- loginUserAtom _ _ ?st = _ =>
      assert (F' : find (fun u => String.eqb (User.username u) username)
                     (JsMap.values (users st))
                   = Some {| User.id := nanoid; User.username := username;
                             User.createdAt := now;
                             User.passwordHash := hashPassword password |})
  end.
  { unfold_action. apply find_after_set_only.
    - intros x I. apply String.eqb_neq. now apply N.
    - apply String.eqb_refl. }
  rewrite (login_found _ username password _ F'). cbn [User.passwordHash User.id].
  rewrite V. reflexivity.
Qed.

Lemma login_after_register_of_a_new_username_witness :
  exists newUser,
    loginUserAtom "dave" "d-secret"
      (snd (registerUserAtom "dave" "d-secret" "ud" 9 Sample.twoUsers))
    = (Returned (Some newUser),
       snd (registerUserAtom "dave" "d-secret" "ud" 9 Sample.twoUsers)).
Proof.
  destruct (login_after_register_of_a_new_username
              Sample.twoUsers "dave" "d-secret" "ud" 9) as (newUser & _ & L & _).
  - intros u [<-|[<-|[]]]; discriminate.
  - now exists newUser.
Defined.

(* ------------------------------------------------------------------------- *)
(** * The expiry sweep, again *)

Lemma expires_swept events now r : expires events now (swept events now r) = false.
Proof.
  unfold swept. destruct (expires events now r) eqn:X; [reflexivity | exact X].
Qed.

Lemma count_zero_all_false {V} (p : V -> bool) (m : JsMap.t V) :
  (forall v, In v (JsMap.values m) -> p v = false) -> JsMap.count p m = 0.
Proof.
  unfold JsMap.count. induction (JsMap.values m) as [|x l IH]; simpl; [reflexivity|].
  intros H. rewrite (H x (or_introl eq_refl)). apply IH. intros v I. apply H. now right.
Qed.

Lemma In_values_map_values {V} (f : V -> V) (m : JsMap.t V) v :
  In v (JsMap.values (JsMap.map_values f m)) <->
  exists v0, In v0 (JsMap.values m) /\ v = f v0.
Proof.
  unfold JsMap.values, JsMap.map_values. rewrite map_map. cbn [snd].
  rewrite in_map_iff. split.
  - intros [[k v0] [E I]]. exists v0. split; [|now rewrite <- E].
    change v0 with (snd (k, v0)). now apply in_map.
  - intros [v0 [I ->]]. apply in_map_iff in I. destruct I as [[k v1] [E I]].
    simpl in E. subst v1. now exists (k, v0).
Qed.

(** After a sweep at time [now], no stored request is PENDING for a stored
    event with [startTime <= now], and a second sweep at the same time
    expires nothing: it returns 0 and leaves the store as it is. *)
Theorem sweep_leaves_no_stale_request_and_is_idempotent (s : Store) (now : Z) :
  JsMap.uniq (requests s) ->
  (forall r event,
      In r (JsMap.values (requests (snd (expirePendingRequestsAtom now s)))) ->
      JoinRequest.status r = PENDING ->
      JsMap.get (JoinRequest.eventId r)
        (events (snd (expirePendingRequestsAtom now s))) = Some event ->
      (now < SportingEvent.startTime event)%Z)
  /\ expirePendingRequestsAtom now (snd (expirePendingRequestsAtom now s))
     = (Returned 0, snd (expirePendingRequestsAtom now s)).
Proof.
  intros U. rewrite (expirePendingRequests_closed_form s now U). cbn [snd].
  split.
  - unfold_action. intros r event I P G.
    apply In_values_map_values in I. destruct I as [r0 [_ ->]].
    pose proof (expires_swept (events s) now r0) as X.
    unfold expires in X. rewrite P, G in X. cbn [status_eqb] in X.
    now apply Z.leb_gt.
  - assert (U' : JsMap.uniq
                   (requests (write requestsAtom
                      (JsMap.map_values (swept (events s) now) (requests s)) s))).
    { unfold_action. unfold JsMap.uniq. now rewrite JsMapFacts.keys_map_values. }
    rewrite (expirePendingRequests_closed_form _ now U'). unfold_action.
    assert (Z : JsMap.count (expires (events s) now)
                  (JsMap.map_values (swept (events s) now) (requests s)) = 0).
    { apply count_zero_all_false. intros v I.
      apply In_values_map_values in I. destruct I as [r0 [_ ->]].
      apply expires_swept. }
    rewrite Z, (swept_nothing _ _ _ Z). reflexivity.
Qed.

Lemma sweep_is_idempotent_witness :
  expirePendingRequestsAtom 150 (snd (expirePendingRequestsAtom 150 Sample.fullEvent))
  = (Returned 0, snd (expirePendingRequestsAtom 150 Sample.fullEvent)).
Proof.
  assert (U : JsMap.uniq (requests Sample.fullEvent)).
  { unfold JsMap.uniq. simpl. repeat constructor; simpl; intuition discriminate. }
  exact (proj2 (sweep_leaves_no_stale_request_and_is_idempotent Sample.fullEvent 150 U)).
Defined.

(* ------------------------------------------------------------------------- *)
(** * References between the collections *)

Lemma In_set_cases {V} k k0 (v v0 : V) (m : JsMap.t V) :
  In (k, v) (JsMap.set k0 v0 m) -> (k = k0 /\ v = v0) \/ In (k, v) m.
Proof.
  induction m as [|[k1 v1] m IH]; simpl.
  - intros [[= <- <-]|[]]. now left.
  - destruct (String.eqb k0 k1); simpl.
    + intros [[= <- <-]|I]; [now left | right; now right].
    + intros [E|I]; [right; now left|].
      destruct (IH I) as [H|H]; [now left | right; now right].
Qed.

Lemma stored_after_set {V} k k0 (v0 : V) (m : JsMap.t V) :
  JsMap.get k m <> None -> JsMap.get k (JsMap.set k0 v0 m) <> None.
Proof.
  destruct (string_dec k0 k) as [->|N].
  - now rewrite JsMapFacts.get_set_same.
  - now rewrite (JsMapFacts.get_set_other _ _ _ _ N).
Qed.

Lemma stored_of_In {V} k (v : V) (m : JsMap.t V) :
  In (k, v) m -> JsMap.get k m <> None.
Proof.
  intros I G. apply JsMapFacts.get_None_iff in G. apply G.
  unfold JsMap.keys. change k with (fst (k, v)). now apply in_map.
Qed.

Lemma signedIn_authenticated uid uid' :
  signedIn (authenticated uid) = Some uid' -> uid' = uid.
Proof.
  unfold signedIn, authenticated. cbn. destruct (String.eqb uid ""); congruence.
Qed.

Lemma In_values_of_get {V} k (v : V) (m : JsMap.t V) :
  JsMap.get k m = Some v -> In v (JsMap.values m).
Proof.
  intros G. apply JsMapFacts.get_Some_In in G.
  unfold JsMap.values. change v with (snd (k, v)). now apply in_map.
Qed.

Lemma integrity_initial : integrity initialStore.
Proof.
  split; [exact wf_initial|]. split.
  - intros k u [].
  - split; [discriminate | intros r []].
Qed.

Lemma integrity_exec (op : Op) (s : Store) : integrity s -> integrity (exec op s).
Proof.
  intros (W & K & RA & RR).
  split; [now apply wf_exec|].
  destruct W as (Uu & Ue & Ur).
  unfold usersKeyedById, referencesResolve.
  destruct op; unfold exec; unfold_atoms.
  - (* register *)
    fold (registerUserAtom username password nanoid now s).
    rewrite register_closed_form.
    destruct (find (hasUsername username) (JsMap.values (users s)));
      unfold logged; unfold_action; (split; [|split]).
    + intros k u I. apply In_set_cases in I.
      destruct I as [[-> ->]|I]; [reflexivity | now apply K].
    + intros uid A. apply signedIn_authenticated in A. subst uid.
      now rewrite JsMapFacts.get_set_same.
    + intros r I. destruct (RR r I) as [Hu He]. split;
        [now apply stored_after_set | exact He].
    + intros k u I. apply In_set_cases in I.
      destruct I as [[-> ->]|I]; [reflexivity | now apply K].
    + intros uid A. apply signedIn_authenticated in A. subst uid.
      now rewrite JsMapFacts.get_set_same.
    + intros r I. destruct (RR r I) as [Hu He]. split;
        [now apply stored_after_set | exact He].
  - (* login *)
    fold (loginUserAtom username password s).
    destruct (find (fun u => String.eqb (User.username u) username)
                (JsMap.values (users s))) as [user|] eqn:F.
    + rewrite (login_found s username password user F).
      destruct (verifyPassword _ _); unfold logged; unfold_action;
        (split; [exact K|]; split; [|exact RR]);
        intros uid A; apply signedIn_authenticated in A; subst uid;
        destruct (find_some _ _ F) as [I _];
        apply JsMapFacts.In_values_get in I; destruct I as [k I];
        rewrite (K k user I); now apply (stored_of_In k user).
    + rewrite (login_not_found s username password F).
      unfold logged; unfold_action.
      split; [exact K|]. split; [exact RA | exact RR].
  - (* logout *)
    unfold_action. split; [exact K|]. split; [discriminate | exact RR].
  - (* clearAllData *)
    unfold_action. split; [intros k u []|]. split; [discriminate | intros r []].
  - (* createEvent *)
    unfold_action. guard_cases; unfold_action;
      (split; [exact K|]; split; [intros ? ?; apply RA; congruence|]);
      try exact RR.
    intros r I. destruct (RR r I) as [Hu He]. split; [exact Hu|].
    now apply stored_after_set.
  - (* updateEvent *)
    unfold_action. guard_cases; unfold_action;
      (split; [exact K|]; split; [intros ? ?; apply RA; congruence|]);
      try exact RR.
    intros r I. destruct (RR r I) as [Hu He]. split; [exact Hu|].
    now apply stored_after_set.
  - (* deleteEvent *)
    unfold_action. rewrite (delete_loop eventId (requests s) Ur).
    guard_cases; unfold_action;
      (split; [exact K|]; split; [intros ? ?; apply RA; congruence|]);
      try exact RR.
    intros r I. apply In_values_filter_values in I. destruct I as [I N].
    apply notFor_true in N. destruct (RR r I) as [Hu He]. split; [exact Hu|].
    rewrite JsMapFacts.get_delete_other by congruence. exact He.
  - (* createJoinRequest *)
    unfold_action. guard_cases; unfold_action;
      (split; [exact K|]; split; [intros ? ?; apply RA; congruence|]);
      try exact RR.
    intros r I. apply JsMapFacts.In_values_set in I. destruct I as [->|I];
      [|now apply RR].
    cbn [JoinRequest.userId JoinRequest.eventId]. split; [apply RA; congruence | congruence].
  - (* accept *)
    unfold_action. guard_cases; unfold_action;
      (split; [exact K|]; split; [intros ? ?; apply RA; congruence|]);
      try exact RR.
    intros r I. apply JsMapFacts.In_values_set in I. destruct I as [->|I];
      [|now apply RR].
    cbn [withStatus JoinRequest.userId JoinRequest.eventId].
    apply RR. eapply In_values_of_get. eassumption.
  - (* reject *)
    unfold_action. guard_cases; unfold_action;
      (split; [exact K|]; split; [intros ? ?; apply RA; congruence|]);
      try exact RR.
    intros r I. apply JsMapFacts.In_values_set in I. destruct I as [->|I];
      [|now apply RR].
    cbn [withStatus JoinRequest.userId JoinRequest.eventId].
    apply RR. eapply In_values_of_get. eassumption.
  - (* cancel *)
    unfold_action. guard_cases; unfold_action;
      (split; [exact K|]; split; [intros ? ?; apply RA; congruence|]);
      try exact RR.
    intros r I. apply JsMapFacts.In_values_set in I. destruct I as [->|I];
      [|now apply RR].
    cbn [withStatus JoinRequest.userId JoinRequest.eventId].
    apply RR. eapply In_values_of_get. eassumption.
  - (* sweep *)
    fold (expirePendingRequestsAtom now s).
    rewrite (expirePendingRequests_closed_form s now Ur). unfold_action.
    split; [exact K|]. split; [exact RA|].
    intros r I. apply In_values_map_values in I. destruct I as [r0 [I ->]].
    unfold swept. destruct (expires (events s) now r0); [|now apply RR].
    cbn [withStatus JoinRequest.userId JoinRequest.eventId]. now apply RR.
Qed.

Lemma integrity_reachable (s : Store) : reachable s -> integrity s.
Proof.
  induction 1 as [|op s _ IH]; [exact integrity_initial | now apply integrity_exec].
Qed.



(* ------------------------------------------------------------------------- *)
(** * The current user *)

Lemma signedIn_authenticated_nonempty uid :
  uid <> "" -> signedIn (authenticated uid) = Some uid.
Proof.
  intros N. unfold signedIn, authenticated. cbn.
  apply String.eqb_neq in N. now rewrite N.
Qed.

(** [currentUserAtom] follows the session: in a reachable store, after a
    login that returns a user the current user is that user; after a
    registration it is the new user; after logout there is none.  (Ids are
    non-empty, as [nanoid()] makes them.) *)
Theorem current_user_follows_the_session (s : Store) :
  reachable s ->
  (forall username password user,
      fst (loginUserAtom username password s) = Returned (Some user) ->
      User.id user <> "" ->
      currentUserAtom (snd (loginUserAtom username password s)) = Some user)
  /\ (forall username password nanoid now newUser,
         fst (registerUserAtom username password nanoid now s) = Returned newUser ->
         nanoid <> "" ->
         currentUserAtom (snd (registerUserAtom username password nanoid now s))
         = Some newUser)
  /\ currentUserAtom (snd (logoutUserAtom s)) = None.
Proof.
  intros R.
  destruct (integrity_reachable s R) as (_ & K & _).
  destruct (wf_reachable s R) as (Uu & _ & _).
  repeat split.
  - intros username password user L N.
    destruct (find (fun u => String.eqb (User.username u) username)
                (JsMap.values (users s))) as [found|] eqn:F.
    + rewrite (login_found s username password found F) in *.
      cbn [fst] in L. injection L as ->.
      unfold currentUserAtom.
      destruct (verifyPassword _ _); unfold logged; unfold_action;
        rewrite (signedIn_authenticated_nonempty _ N);
        destruct (find_some _ _ F) as [I _];
        apply JsMapFacts.In_values_get in I; destruct I as [k I];
        rewrite (K k user I); now apply JsMapFacts.In_get_Some.
    + rewrite (login_not_found s username password F) in L. discriminate.
  - intros username password nanoid now newUser. rewrite register_closed_form.
    cbn [fst snd]. intros [= <-] N. unfold currentUserAtom.
    destruct (find _ _); unfold logged; unfold_action;
      rewrite (signedIn_authenticated_nonempty _ N), JsMapFacts.get_set_same;
      reflexivity.
Qed.

Lemma current_user_follows_the_session_witness :
  currentUserAtom (snd (loginUserAtom "bob" "b-secret" Sample.fullEvent))
  = Some {| User.id := "ub"; User.username := "bob"; User.createdAt := 2;
            User.passwordHash := "hashed_b-secret" |}.
Proof.
  destruct (current_user_follows_the_session Sample.fullEvent
              (reachable_run Sample.fullEventOps initialStore reachable_initial))
    as (L & _ & _).
  apply (L "bob" "b-secret"); [reflexivity | discriminate].
Defined.

(* ------------------------------------------------------------------------- *)
(** * The views of an event and of a user *)

Lemma filter_twice {A} (p q : A -> bool) (l : list A) :
  filter q (filter p l) = filter (fun x => p x && q x) l.
Proof.
  induction l as [|x l IH]; simpl; [reflexivity|].
  destruct (p x); simpl; [destruct (q x); now rewrite IH | exact IH].
Qed.

Lemma reachable_oneActive (s : Store) :
  reachable s -> oneActivePerPair (requests s).
Proof.
  induction 1 as [|op s _ IH].
  - intros u e. cbn. lia.
  - now apply oneActive_exec.
Qed.

Lemma filter_two {A} (p : A -> bool) (l : list A) x y :
  In x l -> In y l -> x <> y -> p x = true -> p y = true ->
  2 <= List.length (filter p l).
Proof.
  induction l as [|z l IH]; simpl; [tauto|].
  intros [->|Ix] [->|Iy] N Px Py.
  - congruence.
  - rewrite Px. simpl.
    assert (In y (filter p l)) by (apply filter_In; now split).
    destruct (filter p l); [contradiction | simpl; lia].
  - rewrite Py. simpl.
    assert (In x (filter p l)) by (apply filter_In; now split).
    destruct (filter p l); [contradiction | simpl; lia].
  - specialize (IH Ix Iy N Px Py). destruct (p z); simpl; lia.
Qed.

(** Distinct keys among the chosen elements of a list in which, for every
    key, at most one element passes the test of that key. *)
Lemma NoDup_keys_of_unique {A} (key : A -> string) (P : string -> A -> bool)
    (q : A -> bool) (l : list A) :
  (forall x, q x = true -> P (key x) x = true) ->
  (forall k, List.length (filter (P k) l) <= 1) ->
  NoDup (map key (filter q l)).
Proof.
  intros Q. induction l as [|x l IH]; simpl; intros H; [constructor|].
  assert (Ht : forall k, List.length (filter (P k) l) <= 1).
  { intros k. specialize (H k). destruct (P k x); simpl in H; lia. }
  destruct (q x) eqn:Qx; [|now apply IH].
  simpl. constructor; [|now apply IH].
  intros I. apply in_map_iff in I. destruct I as [y [E I]].
  apply filter_In in I. destruct I as [I Qy].
  specialize (H (key x)). rewrite (Q x Qx) in H. simpl in H.
  assert (In y (filter (P (key x)) l)).
  { apply filter_In. split; [exact I|]. rewrite <- E. now apply Q. }
  destruct (filter (P (key x)) l); [contradiction | simpl in H; lia].
Qed.

Lemma definedOnly_all_stored (users : JsMap.t User.t) (ids : list UserId) :
  (forall k u, In (k, u) users -> User.id u = k) ->
  (forall id, In id ids -> JsMap.get id users <> None) ->
  map User.id (definedOnly (map (fun id => JsMap.get id users) ids)) = ids.
Proof.
  intros K. induction ids as [|id ids IH]; simpl; intros H; [reflexivity|].
  destruct (JsMap.get id users) as [u|] eqn:G.
  - simpl. rewrite (K id u (JsMapFacts.get_Some_In _ _ _ G)). f_equal.
    apply IH. intros x I. apply H. now right.
  - exfalso. apply (H id); [now left | exact G].
Qed.

Lemma with_users_all_stored (users : JsMap.t User.t) (q : JoinRequest.t -> bool)
    (l : list JoinRequest.t) :
  (forall r, In r l -> JsMap.get (JoinRequest.userId r) users <> None) ->
  map fst
    (definedOnly
       (map (fun req =>
               match JsMap.get (JoinRequest.userId req) users with
               | Some user => Some (req, user)
               | None => None
               end)
            (filter q l)))
  = filter q l.
Proof.
  induction l as [|r l IH]; intros H; [reflexivity|].
  cbn [filter]. pose proof (H r (or_introl eq_refl)) as Hu.
  assert (Ht : forall x, In x l -> JsMap.get (JoinRequest.userId x) users <> None)
    by (intros x I; apply H; now right).
  destruct (q r); [|now apply IH].
  cbn [map]. destruct (JsMap.get (JoinRequest.userId r) users); [|contradiction].
  cbn [definedOnly map fst]. f_equal. now apply IH.
Qed.

(** In a reachable store the views of an event agree: the participants
    ([eventParticipantsAtom]) are the stored users of the accepted players
    of the event details, one for one and in order, their number is the
    participant count of the home screen and the count the capacity checks
    use, and the pending requests with their users
    ([pendingRequestsForEventAtom]) are the pending requests of the event
    details: no entry is dropped for a missing user. *)
Theorem views_of_an_event_agree (s : Store) (eventId : EventId) :
  reachable s ->
  map User.id (eventParticipantsAtom s eventId)
  = map JoinRequest.userId (filter (acceptedFor eventId) (JsMap.values (requests s)))
  /\ List.length (eventParticipantsAtom s eventId) = getParticipantCount s eventId
  /\ getParticipantCount s eventId = acceptedCount eventId (requests s)
  /\ (forall details,
         eventDetailsAtom s eventId = Some details ->
         map User.id (eventParticipantsAtom s eventId)
         = EventWithParticipants.acceptedPlayers details
         /\ map fst (pendingRequestsForEventAtom s eventId)
            = EventWithParticipants.pendingRequests details).
Proof.
  intros R.
  destruct (integrity_reachable s R) as (_ & K & _ & RR).
  assert (E1 : map User.id (eventParticipantsAtom s eventId)
               = map JoinRequest.userId
                   (filter (acceptedFor eventId) (JsMap.values (requests s)))).
  { unfold eventParticipantsAtom. cbn [read requestsAtom usersAtom].
    fold (acceptedFor eventId). apply definedOnly_all_stored; [exact K|].
    intros id I. apply in_map_iff in I. destruct I as [r [<- I]].
    apply filter_In in I. now apply RR. }
  split; [exact E1|]. split; [|split; [reflexivity|]].
  - rewrite <- (length_map User.id), E1, length_map. reflexivity.
  - intros details D. unfold eventDetailsAtom in D.
    cbn [read eventsAtom requestsAtom usersAtom] in D.
    destruct (JsMap.get eventId (events s)) as [event|]; [|discriminate].
    injection D as <-. cbn [EventWithParticipants.acceptedPlayers
                            EventWithParticipants.pendingRequests].
    rewrite !filter_twice. split; [exact E1|].
    unfold pendingRequestsForEventAtom. cbn [read requestsAtom usersAtom].
    apply with_users_all_stored. intros r I. now apply RR.
Qed.

Lemma views_of_an_event_agree_witness :
  map User.id (eventParticipantsAtom Sample.fullEvent "e1") = ["ub"]
  /\ List.length (eventParticipantsAtom Sample.fullEvent "e1")
     = getParticipantCount Sample.fullEvent "e1".
Proof.
  destruct (views_of_an_event_agree Sample.fullEvent "e1"
              (reachable_run Sample.fullEventOps initialStore reachable_initial))
    as (E & L & _).
  split; [exact E | exact L].
Defined.

Lemma activeFor_intro u e r :
  JoinRequest.userId r = u -> JoinRequest.eventId r = e -> active r = true ->
  activeFor u e r = true.
Proof.
  intros <- <- A. unfold activeFor. now rewrite !String.eqb_refl, A.
Qed.

(** In a reachable store the details of an event list every user at most
    once: no user appears twice among the accepted players, no user has two
    of the pending requests, and no user with a pending request is among
    the accepted players. *)
Theorem event_details_list_each_user_once
    (s : Store) (eventId : EventId) (details : EventWithParticipants.t) :
  reachable s ->
  eventDetailsAtom s eventId = Some details ->
  NoDup (EventWithParticipants.acceptedPlayers details)
  /\ NoDup (map JoinRequest.userId (EventWithParticipants.pendingRequests details))
  /\ (forall r, In r (EventWithParticipants.pendingRequests details) ->
                ~ In (JoinRequest.userId r)
                     (EventWithParticipants.acceptedPlayers details)).
Proof.
  intros R D. pose proof (reachable_oneActive s R) as One.
  unfold oneActivePerPair, JsMap.count in One.
  unfold eventDetailsAtom in D. cbn [read eventsAtom requestsAtom usersAtom] in D.
  destruct (JsMap.get eventId (events s)) as [event|]; [|discriminate].
  injection D as <-. cbn [EventWithParticipants.acceptedPlayers
                          EventWithParticipants.pendingRequests].
  rewrite !filter_twice. repeat split.
  - apply (NoDup_keys_of_unique JoinRequest.userId (fun u => activeFor u eventId)).
    + intros x Q. apply andb_true_iff in Q. destruct Q as [Qe Qs].
      apply String.eqb_eq in Qe. apply activeFor_intro; auto.
      unfold active. rewrite Qs. apply orb_true_r.
    + intros u. apply One.
  - apply (NoDup_keys_of_unique JoinRequest.userId (fun u => activeFor u eventId)).
    + intros x Q. apply andb_true_iff in Q. destruct Q as [Qe Qs].
      apply String.eqb_eq in Qe. apply activeFor_intro; auto.
      unfold active. now rewrite Qs.
    + intros u. apply One.
  - intros r I J. apply filter_In in I. destruct I as [I Q].
    apply andb_true_iff in Q. destruct Q as [Qe Qs].
    apply String.eqb_eq in Qe. apply status_eqb_eq in Qs.
    apply in_map_iff in J. destruct J as [r' [Eu J]].
    apply filter_In in J. destruct J as [J Q'].
    apply andb_true_iff in Q'. destruct Q' as [Qe' Qs'].
    apply String.eqb_eq in Qe'. apply status_eqb_eq in Qs'.
    assert (N : r <> r') by (intros ->; congruence).
    pose proof (filter_two (activeFor (JoinRequest.userId r) eventId)
                  (JsMap.values (requests s)) r r' I J N) as T.
    specialize (One (JoinRequest.userId r) eventId).
    assert (2 <= 1); [|lia]. etransitivity; [apply T|exact One].
    + apply activeFor_intro; auto. unfold active. now rewrite Qs.
    + apply activeFor_intro; auto. unfold active. now rewrite Qs'.
Qed.

Lemma event_details_list_each_user_once_witness :
  exists details,
    eventDetailsAtom Sample.fullEvent "e1" = Some details
    /\ NoDup (EventWithParticipants.acceptedPlayers details).
Proof.
  eexists. split; [reflexivity|].
  refine (proj1 (event_details_list_each_user_once Sample.fullEvent "e1" _
                   (reachable_run Sample.fullEventOps initialStore reachable_initial)
                   eq_refl)).
Defined.



(* ------------------------------------------------------------------------- *)
(** * Future events *)

Section Sorting.
Context {A : Type} (time : A -> Z).

Let byTime (a b : A) : Z := (time a - time b)%Z.
Let noLater (a b : A) : Prop := (time a <= time b)%Z.

Lemma sortInsert_perm x (l : list A) : Permutation (sortInsert byTime x l) (x :: l).
Proof.
  induction l as [|y l IH]; simpl; [apply Permutation_refl|].
  destruct (byTime x y <=? 0)%Z; [apply Permutation_refl|].
  etransitivity; [apply perm_skip, IH | apply perm_swap].
Qed.

Lemma arraySort_perm (l : list A) : Permutation (arraySort byTime l) l.
Proof.
  unfold arraySort. induction l as [|x l IH]; simpl; [constructor|].
  etransitivity; [apply sortInsert_perm | now apply perm_skip].
Qed.

Lemma sortInsert_sorted x (l : list A) :
  Sorted noLater l -> Sorted noLater (sortInsert byTime x l).
Proof.
  induction l as [|y l IH]; simpl; intros S.
  - repeat constructor.
  - destruct (byTime x y <=? 0)%Z eqn:C.
    + constructor; [exact S|]. constructor. unfold noLater, byTime in *.
      apply Z.leb_le in C. lia.
    + inversion S as [|? ? S' H]; subst. constructor; [now apply IH|].
      apply Z.leb_gt in C. unfold byTime in C.
      destruct l as [|z l]; simpl.
      * constructor. unfold noLater. lia.
      * destruct (byTime x z <=? 0)%Z; constructor.
        -- unfold noLater. lia.
        -- now inversion H.
Qed.

Lemma arraySort_sorted (l : list A) : Sorted noLater (arraySort byTime l).
Proof.
  unfold arraySort. induction l as [|x l IH]; simpl; [constructor|].
  now apply sortInsert_sorted.
Qed.

End Sorting.

(** [futureEventsAtom] yields the stored events that start after [now],
    each as often as it is stored, in an order in which no event starts
    later than the one after it; an event that has started is never in it. *)
Theorem future_events_are_the_upcoming_ones_in_order (s : Store) (now : Z) :
  Permutation (futureEventsAtom s now)
    (filter (fun event => (SportingEvent.startTime event >? now)%Z)
            (JsMap.values (events s)))
  /\ Sorted startsNoLater (futureEventsAtom s now)
  /\ (forall event,
         In event (futureEventsAtom s now)
         <-> In event (JsMap.values (events s))
             /\ (SportingEvent.startTime event > now)%Z)
  /\ List.length (futureEventsAtom s now)
     = JsMap.count (fun event => (SportingEvent.startTime event >? now)%Z) (events s).
Proof.
  assert (P : Permutation (futureEventsAtom s now)
                (filter (fun event => (SportingEvent.startTime event >? now)%Z)
                        (JsMap.values (events s))))
    by apply (arraySort_perm SportingEvent.startTime).
  split; [exact P|]. split; [|split].
  - apply (arraySort_sorted SportingEvent.startTime).
  - intros event. split.
    + intros I. apply (Permutation_in _ P) in I. apply filter_In in I.
      destruct I as [I G]. split; [exact I|]. apply Z.gtb_lt in G. lia.
    + intros [I G]. apply (Permutation_in _ (Permutation_sym P)).
      apply filter_In. split; [exact I|]. apply Z.gtb_lt. lia.
  - apply (Permutation_length P).
Qed.

(* ------------------------------------------------------------------------- *)
(** * The home screen *)



(** The "Full" badge of an event card shows exactly when the ACCEPTED
    requests for the event's id number [maxPlayers], which is when no spot
    is left; when they outnumber [maxPlayers] (an update may lower it) the
    card shows no badge, although the capacity check refuses to join. *)
Theorem full_badge_iff_no_spot_left (s : Store) (event : SportingEvent.t) :
  (spotsBadge s event = Full
   <-> Z.of_nat (acceptedCount (SportingEvent.id event) (requests s))
       = SportingEvent.maxPlayers event)
  /\ ((SportingEvent.maxPlayers event
       < Z.of_nat (acceptedCount (SportingEvent.id event) (requests s)))%Z ->
      spotsBadge s event = NoBadge
      /\ isFull (SportingEvent.id event) (requests s) event = true).
Proof.
  unfold spotsBadge, getParticipantCount, isFull. cbn [read requestsAtom].
  fold (acceptedFor (SportingEvent.id event)).
  fold (acceptedCount (SportingEvent.id event) (requests s)).
  set (n := Z.of_nat (acceptedCount (SportingEvent.id event) (requests s))).
  set (m := SportingEvent.maxPlayers event).
  destruct (m - n >? 0)%Z eqn:G; destruct (m - n <=? 3)%Z eqn:L3;
    destruct (m - n =? 0)%Z eqn:E0; cbn [andb];
    rewrite ?Z.gtb_ltb, ?Z.ltb_lt, ?Z.ltb_ge, ?Z.leb_le, ?Z.leb_gt,
      ?Z.eqb_eq, ?Z.eqb_neq in *;
    (split; [split; [try discriminate; intros _; lia | try lia; reflexivity]
            | intros Over; split; [try lia; reflexivity | apply Z.leb_le; lia]]).
Qed.

(* ------------------------------------------------------------------------- *)
(** * The create-event screen *)

Section CreateEventScreenFacts.
Variable parseInt10 : string -> option Z.
Variable trim : string -> string.






End CreateEventScreenFacts.



(* ------------------------------------------------------------------------- *)
(** * The login screen *)

(** In login mode the screen goes to "/" exactly when some stored user has
    the typed username, whatever the password typed; in register mode it
    stays where it is, with the new user stored and signed in. *)
Theorem login_screen_goes_home_iff_username_is_known
    (s : Store) (username password : string) (nanoid : UserId) (now : Z) :
  (fst (handleSubmit false username password nanoid now s) = RouterPush "/"
   <-> exists u, In u (JsMap.values (users s)) /\ User.username u = username)
  /\ fst (handleSubmit true username password nanoid now s) = NoEffect
  /\ auth (snd (handleSubmit true username password nanoid now s))
     = authenticated nanoid.
Proof.
  unfold handleSubmit. cbn [fst snd]. split; [|split; [reflexivity|]].
  - destruct (find (fun u => String.eqb (User.username u) username)
                (JsMap.values (users s))) as [user|] eqn:F.
    + rewrite (login_found s username password user F). cbn [fst].
      split; [intros _|reflexivity].
      destruct (find_some _ _ F) as [I E]. apply String.eqb_eq in E. now exists user.
    + rewrite (login_not_found s username password F). cbn [fst].
      split; [discriminate|]. intros [u [I E]].
      pose proof (find_none _ _ F u I) as Z. apply String.eqb_neq in Z. contradiction.
  - rewrite register_closed_form. cbn [snd]. reflexivity.
Qed.

(* ------------------------------------------------------------------------- *)
(** * Requests grouped by event and by user *)

Section Grouping.
Variable key : JoinRequest.t -> string.

(** The loop of [requestsByEventAtom] and of [requestsByUserAtom], for the
    key ([eventId] or [userId]) that it groups by. *)
Let groupStep (request : JoinRequest.t) (_ : string)
    (byKey : JsMap.t (list JoinRequest.t)) : JsMap.t (list JoinRequest.t) :=
  JsMap.set (key request) (getOrEmpty (key request) byKey ++ [request]) byKey.

Let ofKey (k : string) (request : JoinRequest.t) : bool := String.eqb (key request) k.

Lemma nonEmpty_app_one {A} (l : list A) (x : A) : nonEmpty (l ++ [x]) = Some (l ++ [x]).
Proof. destruct l; reflexivity. Qed.

Lemma getOrEmpty_nonEmpty {A} k (m : JsMap.t (list A)) (l : list A) :
  JsMap.get k m = nonEmpty l -> getOrEmpty k m = l.
Proof.
  unfold getOrEmpty. intros ->. destruct l; reflexivity.
Qed.

Lemma group_loop_from (post pre : JsMap.t JoinRequest.t)
    (acc : JsMap.t (list JoinRequest.t)) :
  (forall k, JsMap.get k acc = nonEmpty (filter (ofKey k) (JsMap.values pre))) ->
  forall k,
    JsMap.get k (JsMap.forEach groupStep post acc)
    = nonEmpty (filter (ofKey k) (JsMap.values (pre ++ post))).
Proof.
  unfold JsMap.forEach. revert pre acc.
  induction post as [|[id r] post IH]; intros pre acc H k.
  - simpl. rewrite app_nil_r. apply H.
  - cbn [fold_left fst snd].
    replace (pre ++ (id, r) :: post) with ((pre ++ [(id, r)]) ++ post)
      by now rewrite <- app_assoc.
    apply IH. clear k. intros k. unfold groupStep.
    unfold JsMap.values. rewrite map_app, filter_app. cbn [map snd filter].
    unfold ofKey at 2.
    destruct (String.eqb (key r) k) eqn:E.
    + apply String.eqb_eq in E. subst k.
      rewrite JsMapFacts.get_set_same, (getOrEmpty_nonEmpty _ _ _ (H (key r))).
      now rewrite nonEmpty_app_one.
    + apply String.eqb_neq in E.
      rewrite (JsMapFacts.get_set_other _ _ _ _ E), app_nil_r. apply H.
Qed.

Lemma group_loop (requests : JsMap.t JoinRequest.t) (k : string) :
  JsMap.get k (JsMap.forEach groupStep requests JsMap.empty)
  = nonEmpty (filter (ofKey k) (JsMap.values requests)).
Proof.
  apply (group_loop_from requests [] JsMap.empty). reflexivity.
Qed.

End Grouping.

(** Looking up an event in [requestsByEventAtom] gives the stored requests
    for that event, all of them and in Map order, and gives nothing when
    there is none; likewise a user in [requestsByUserAtom]. *)
Theorem grouped_requests_are_the_filtered_ones (s : Store) (k : string) :
  JsMap.get k (requestsByEventAtom s)
  = nonEmpty (filter (fun req => String.eqb (JoinRequest.eventId req) k)
                     (JsMap.values (requests s)))
  /\ JsMap.get k (requestsByUserAtom s)
     = nonEmpty (filter (fun req => String.eqb (JoinRequest.userId req) k)
                        (JsMap.values (requests s))).
Proof.
  split.
  - exact (group_loop JoinRequest.eventId (requests s) k).
  - exact (group_loop JoinRequest.userId (requests s) k).
Qed.

(* ------------------------------------------------------------------------- *)
(** * What a stored request keeps *)

(** Whatever is called, a request that stays stored keeps its id, its user,
    its event and its creation time; it is stored unchanged unless it was
    PENDING.  (For createJoinRequest the generated id is taken not to be a
    stored key.) *)
Theorem stored_request_keeps_its_identity
    (op : Op) (s : Store) (k : RequestId) (r r' : JoinRequest.t) :
  JsMap.uniq (requests s) ->
  freshRequestId op s ->
  JsMap.get k (requests s) = Some r ->
  JsMap.get k (requests (exec op s)) = Some r' ->
  JoinRequest.id r' = JoinRequest.id r
  /\ JoinRequest.userId r' = JoinRequest.userId r
  /\ JoinRequest.eventId r' = JoinRequest.eventId r
  /\ JoinRequest.createdAt r' = JoinRequest.createdAt r
  /\ (r' = r \/ JoinRequest.status r = PENDING).
Proof.
  intros U F G.
  assert (Same : JsMap.get k (requests s) = Some r' ->
                 JoinRequest.id r' = JoinRequest.id r
                 /\ JoinRequest.userId r' = JoinRequest.userId r
                 /\ JoinRequest.eventId r' = JoinRequest.eventId r
                 /\ JoinRequest.createdAt r' = JoinRequest.createdAt r
                 /\ (r' = r \/ JoinRequest.status r = PENDING)).
  { intros G'. assert (r' = r) by congruence. subst r'. repeat split. now left. }
  assert (Rewritten :
            forall requestId request status now,
              JsMap.get requestId (requests s) = Some request ->
              status_eqb (JoinRequest.status request) PENDING = true ->
              JsMap.get k (JsMap.set requestId (withStatus request status now)
                             (requests s)) = Some r' ->
              JoinRequest.id r' = JoinRequest.id r
              /\ JoinRequest.userId r' = JoinRequest.userId r
              /\ JoinRequest.eventId r' = JoinRequest.eventId r
              /\ JoinRequest.createdAt r' = JoinRequest.createdAt r
              /\ (r' = r \/ JoinRequest.status r = PENDING)).
  { intros requestId request status now Gr P G'.
    apply get_set_cases in G'. destruct G' as [[-> ->]|[_ G']]; [|now apply Same].
    assert (request = r) by congruence. subst request.
    apply status_eqb_eq in P. repeat split. now right. }
  destruct op; unfold exec;
    try rewrite (expirePendingRequests_closed_form s _ U);
    unfold_atoms; unfold_action.
  - guard_cases; exact Same.
  - guard_cases; exact Same.
  - exact Same.
  - discriminate.
  - guard_cases; exact Same.
  - guard_cases; exact Same.
  - rewrite (delete_loop eventId (requests s) U).
    guard_cases; unfold_action; try exact Same.
    rewrite (JsMapFacts.get_filter_values _ _ _ U), G.
    destruct (notFor eventId r); [|discriminate].
    intros [= <-]. repeat split. now left.
  - simpl in F. guard_cases; unfold_action; try exact Same.
    rewrite JsMapFacts.get_set_other
      by (intros E; cbn in E; rewrite E in F; congruence).
    exact Same.
  - guard_cases; unfold_action; try exact Same. eauto.
  - guard_cases; unfold_action; try exact Same. eauto.
  - guard_cases; unfold_action; try exact Same. eauto.
  - rewrite JsMapFacts.get_map_values, G. cbn [option_map]. unfold swept.
    destruct (expires (events s) now r) eqn:X.
    + intros [= <-]. apply expires_true in X. destruct X as [P _].
      repeat split. now right.
    + intros [= <-]. repeat split. now left.
Qed.

Lemma stored_request_keeps_its_identity_witness :
  exists r',
    JsMap.get "r2" (requests (exec (ExpirePendingRequests 150) Sample.fullEvent))
    = Some r'
    /\ JoinRequest.userId r' = "uc"
    /\ JoinRequest.eventId r' = "e1".
Proof.
  assert (U : JsMap.uniq (requests Sample.fullEvent)).
  { unfold JsMap.uniq. simpl. repeat constructor; simpl; intuition discriminate. }
  eexists. split; [reflexivity|].
  destruct (stored_request_keeps_its_identity
              (ExpirePendingRequests 150) Sample.fullEvent "r2"
              {| JoinRequest.id := "r2"; JoinRequest.userId := "uc";
                 JoinRequest.eventId := "e1"; JoinRequest.createdAt := 30;
                 JoinRequest.updatedAt := 30; JoinRequest.status := PENDING |}
              _ U I eq_refl eq_refl) as (_ & Hu & He & _).
  split; [exact Hu | exact He].
Defined.
